(** * pycflow2dot: the call-tree parser and the node formatter

    A shallow embedding of [pycflow2dot.py]: the text normaliser and the
    depth-indexed parser of [cflow2nx], the reserved-word renamer
    [rename_if_reserved_by_dot], the formatter [choose_node_format] and
    the cross-graph query [node_defined_in_other_src].

    Conventions.
    - A Python [str] is a [string]; a character is an 8-bit code point.
      Rocq strings have no escape sequences, so the Python literal
      ['\\n'] (backslash, letter n) is written ["\n"] here and the Python
      literal ['\\\\'] (two backslashes) is written ["\\"].
    - A Python [int] is a [Z].
    - A Python [dict] keyed by integers is a [gmap Z _]; the [networkx]
      graph, whose iteration order is observable, is an association list
      kept in insertion order.
    - Statements that mutate local objects and may raise are written in a
      state-and-exception monad whose failure case keeps the state the
      objects had when the exception left the function. *)

From Stdlib Require Import ZArith Ascii String List Bool Lia.
From Stdlib Require Import Numbers.DecimalString.
From stdpp Require Import base option list gmap strings.

Import ListNotations.
Local Open Scope string_scope.
Local Open Scope Z_scope.

(** ** Characters and the Python built-ins the code calls *)

Module Py.

Definition code (c : ascii) : Z := Z.of_N (N_of_ascii c).

Definition newline : ascii := ascii_of_nat 10.
Definition tab : ascii := ascii_of_nat 9.
Definition carriage_return : ascii := ascii_of_nat 13.

(** White space as Python sees it below code point 256 ([str.isspace],
    the class [\s] of [re] on [str] patterns, and what [int] strips). *)
Definition is_space (c : ascii) : bool :=
  let n := code c in
  ((9 <=? n) && (n <=? 13)) || ((28 <=? n) && (n <=? 32))
  || (n =? 133) || (n =? 160).

Definition is_digit (c : ascii) : bool :=
  let n := code c in (48 <=? n) && (n <=? 57).

Definition digit_val (c : ascii) : option Z :=
  if is_digit c then Some (code c - 48) else None.

(** [str.lower] on one code point below 256. *)
Definition lower_char (c : ascii) : ascii :=
  let n := code c in
  if ((65 <=? n) && (n <=? 90))
     || ((192 <=? n) && (n <=? 222) && negb (n =? 215))
  then ascii_of_N (Z.to_N (n + 32)) else c.

Fixpoint lower (s : string) : string :=
  match s with
  | EmptyString => EmptyString
  | String c r => String (lower_char c) (lower r)
  end.

Fixpoint lstrip (s : string) : string :=
  match s with
  | EmptyString => EmptyString
  | String c r => if is_space c then lstrip r else s
  end.

Fixpoint rstrip (s : string) : string :=
  match s with
  | EmptyString => EmptyString
  | String c r =>
      match rstrip r with
      | EmptyString => if is_space c then EmptyString else String c EmptyString
      | r' => String c r'
      end
  end.

Definition strip (s : string) : string := rstrip (lstrip s).

(** The digits of a base-10 literal accepted by [int]: at least one
    digit, single underscores allowed between two digits. *)
Fixpoint int_digits (acc : Z) (after_digit : bool) (s : string) : option Z :=
  match s with
  | EmptyString => if after_digit then Some acc else None
  | String c r =>
      match digit_val c with
      | Some d => int_digits (10 * acc + d) true r
      | None =>
          if Ascii.eqb c "_" && after_digit then int_digits acc false r
          else None
      end
  end.

(** [int(s)] for a [str] argument; [None] stands for [ValueError]. *)
Definition int (s : string) : option Z :=
  match strip s with
  | String "+" r => int_digits 0 false r
  | String "-" r => Z.opp <$> int_digits 0 false r
  | t => int_digits 0 false t
  end.

(** [str(n)] for an [int]. *)
Definition str (n : Z) : string := NilZero.string_of_int (Z.to_int n).

(** [s.replace(c, '')] for a one-character [c]. *)
Fixpoint remove_char (x : ascii) (s : string) : string :=
  match s with
  | EmptyString => EmptyString
  | String c r =>
      if Ascii.eqb c x then remove_char x r else String c (remove_char x r)
  end.

(** [s.split(c)] for a one-character separator; [re.split] on a
    pattern that is one literal character gives the same list. *)
Fixpoint split (sep : ascii) (s : string) : list string :=
  match s with
  | EmptyString => [EmptyString]
  | String c r =>
      if Ascii.eqb c sep then EmptyString :: split sep r
      else match split sep r with
           | h :: t => String c h :: t
           | [] => [String c EmptyString]
           end
  end.

(** [x in l] on a list or a set literal of strings. *)
Definition mem (x : string) (l : list string) : bool :=
  existsb (String.eqb x) l.

End Py.

(** ** The regular expressions of the source, one function per call *)

Module Re.

(** [.*>] tried at the head of [s]: the longest run of characters
    other than a newline that ends in [>]. *)
Fixpoint through_last_gt (s : string) : option string :=
  match s with
  | EmptyString => None
  | String c r =>
      if Ascii.eqb c Py.newline then None
      else match through_last_gt r with
           | Some m => Some (String c m)
           | None => if Ascii.eqb c ">" then Some (String c EmptyString) else None
           end
  end.

(** [re.findall(':.*>', s)]. [skip] counts the characters of the
    previous match that are still to be passed over. *)
Fixpoint findall_colon_gt_from (skip : nat) (s : string) : list string :=
  match s with
  | EmptyString => []
  | String c r =>
      match skip with
      | S k => findall_colon_gt_from k r
      | O =>
          if Ascii.eqb c ":" then
            match through_last_gt r with
            | Some m => String c m :: findall_colon_gt_from (String.length m) r
            | None => findall_colon_gt_from O r
            end
          else findall_colon_gt_from O r
      end
  end.

Definition findall_colon_gt (s : string) : list string :=
  findall_colon_gt_from O s.

(** [.*$] tried at the head of [s]: [Some rest] when it matches, with
    [rest] the text left after the match (nothing, or the newline that
    ends the string). *)
Fixpoint dot_star_dollar (s : string) : option string :=
  match s with
  | EmptyString => Some EmptyString
  | String c r =>
      if Ascii.eqb c Py.newline then
        match r with
        | EmptyString => Some s
        | _ => None
        end
      else dot_star_dollar r
  end.

(** [re.sub(r'\(.*$', '', s)]. *)
Fixpoint sub_paren_to_end (s : string) : string :=
  match s with
  | EmptyString => EmptyString
  | String c r =>
      if Ascii.eqb c "(" then
        match dot_star_dollar r with
        | Some rest => rest
        | None => String c (sub_paren_to_end r)
        end
      else String c (sub_paren_to_end r)
  end.

(** [re.sub(r'^\{\s*', '', s)]. *)
Definition sub_leading_brace (s : string) : string :=
  match s with
  | String "{" r => Py.lstrip r
  | _ => s
  end.

(** [re.sub(r'\}\s*', r'\t', s)]. [eating] holds while the white
    space that follows a closing brace is being consumed. *)
Fixpoint sub_closing_brace_from (eating : bool) (s : string) : string :=
  match s with
  | EmptyString => EmptyString
  | String c r =>
      if eating && Py.is_space c then sub_closing_brace_from true r
      else if Ascii.eqb c "}" then String Py.tab (sub_closing_brace_from true r)
      else String c (sub_closing_brace_from false r)
  end.

Definition sub_closing_brace (s : string) : string :=
  sub_closing_brace_from false s.

(** [re.sub(r'_', r'\\\\_', s)]: the template [\\\\_] stands for two
    backslashes and an underscore. *)
Fixpoint sub_underscore (s : string) : string :=
  match s with
  | EmptyString => EmptyString
  | String c r =>
      if Ascii.eqb c "_" then "\\_" +:+ sub_underscore r
      else String c (sub_underscore r)
  end.

End Re.

(** ** Exceptions and the state-and-exception monad *)

Inductive key : Type :=
| IntKey (n : Z)
| StrKey (s : string).

Inductive exn : Type :=
| KeyError (k : key)
| ValueError
| IndexError.

(** The spec's names for the two parse failures. *)
Definition MissingAncestorError (depth : Z) : exn := KeyError (IntKey depth).
Definition MalformedLineError : exn := ValueError.

Inductive outcome (S A : Type) : Type :=
| Done (a : A) (s : S)
| Raised (e : exn) (s : S).
Arguments Done {S A} a s.
Arguments Raised {S A} e s.

Definition M (S A : Type) : Type := S -> outcome S A.

Definition ret {S A} (a : A) : M S A := fun s => Done a s.

Definition bind {S A B} (m : M S A) (k : A -> M S B) : M S B :=
  fun s => match m s with
           | Done a s' => k a s'
           | Raised e s' => Raised e s'
           end.

Definition raise {S A} (e : exn) : M S A := fun s => Raised e s.
Definition reads {S A} (f : S -> A) : M S A := fun s => Done (f s) s.
Definition modify {S} (f : S -> S) : M S unit := fun s => Done tt (f s).

(** A read that may raise. *)
Definition try_reads {S A} (f : S -> exn + A) : M S A :=
  fun s => match f s with
           | inr a => Done a s
           | inl e => Raised e s
           end.

Declare Scope py_scope.
Delimit Scope py_scope with py.
Notation "x <- m ;; k" := (bind m (fun x => k))
  (at level 100, m at next level, right associativity) : py_scope.
Notation "m ;; k" := (bind m (fun _ => k))
  (at level 100, right associativity) : py_scope.
Local Open Scope py_scope.

(** [for x in l: body(x)]. *)
Fixpoint for_each {S A} (l : list A) (body : A -> M S unit) : M S unit :=
  match l with
  | [] => ret tt
  | x :: r => body x ;; for_each r body
  end.

Definition state_of {S A} (o : outcome S A) : S :=
  match o with
  | Done _ s => s
  | Raised _ s => s
  end.

(** ** [networkx.DiGraph], as far as the code uses it *)

Module DiGraph.

(** The attribute dictionary of a node; the code writes only the keys
    [nest_level] and [src_line]. A node that [add_edge] had to create
    has neither. *)
Record attrs : Type := { nest_level : option Z; src_line : option Z }.

Definition no_attrs : attrs := {| nest_level := None; src_line := None |}.

(** What the graph keeps for a node: its attributes and its successors
    in the order the edges were added. *)
Record node_data : Type := { attr : attrs; succ : list string }.

(** Nodes in insertion order; every name occurs at most once. *)
Definition t : Type := list (string * node_data).

Definition empty : t := [].

Fixpoint get (n : string) (g : t) : option node_data :=
  match g with
  | [] => None
  | (m, d) :: r => if String.eqb n m then Some d else get n r
  end.

(** [n in g]. *)
Definition has_node (n : string) (g : t) : bool :=
  match get n g with Some _ => true | None => false end.

(** Apply [f] to the data of [n], where it is. *)
Fixpoint update (n : string) (f : node_data -> node_data) (g : t) : t :=
  match g with
  | [] => []
  | (m, d) :: r =>
      if String.eqb n m then (m, f d) :: r else (m, d) :: update n f r
  end.

(** [g.add_node(n, nest_level=nl, src_line=sl)]. *)
Definition add_node (n : string) (nl sl : Z) (g : t) : t :=
  let a := {| nest_level := Some nl; src_line := Some sl |} in
  if has_node n g then update n (fun d => {| attr := a; succ := succ d |}) g
  else (g ++ [(n, {| attr := a; succ := [] |})])%list.

(** The node creation implied by [add_edge]. *)
Definition ensure_node (n : string) (g : t) : t :=
  if has_node n g then g
  else (g ++ [(n, {| attr := no_attrs; succ := [] |})])%list.

(** [g.has_edge(u, v)]. *)
Definition has_edge (u v : string) (g : t) : bool :=
  match get u g with
  | Some d => Py.mem v (succ d)
  | None => false
  end.

(** [g.add_edge(u, v)]: both ends are created when missing, and the
    successor entry is a dictionary key, so adding twice keeps one. *)
Definition add_edge (u v : string) (g : t) : t :=
  let g := ensure_node v (ensure_node u g) in
  update u (fun d => {| attr := attr d;
                        succ := if Py.mem v (succ d) then succ d
                                else (succ d ++ [v])%list |}) g.

(** [g.remove_node(n)] for a node of the graph: the node goes, and the
    edges from it and to it. *)
Definition remove_node (n : string) (g : t) : t :=
  map (fun p => (p.1, {| attr := attr p.2;
                         succ := filter (fun v => v <> n) (succ p.2) |}))
      (filter (fun p => p.1 <> n) g).

(** [list(g)] and [list(g.edges())]. *)
Definition nodes (g : t) : list string := map fst g.

Definition edges (g : t) : list (string * string) :=
  flat_map (fun '(u, d) => map (pair u) (succ d)) g.

(** [g.nodes[n]['src_line']]. *)
Definition node_src_line (n : string) (g : t) : exn + Z :=
  match get n g with
  | None => inl (KeyError (StrKey n))
  | Some d =>
      match src_line (attr d) with
      | None => inl (KeyError (StrKey "src_line"))
      | Some l => inr l
      end
  end.

Definition node_nest_level (n : string) (g : t) : exn + Z :=
  match get n g with
  | None => inl (KeyError (StrKey n))
  | Some d =>
      match nest_level (attr d) with
      | None => inl (KeyError (StrKey "nest_level"))
      | Some l => inr l
      end
  end.

End DiGraph.

(** ** The source's constants *)

Definition _COLORS : list string :=
  ["#eecc80"; "#ccee80"; "#80ccee"; "#eecc80"; "#80eecc"].

Definition _DOT_RESERVED : list string :=
  ["graph"; "strict"; "digraph"; "subgraph"; "node"; "edge"].

(** ** [rename_if_reserved_by_dot] *)

Definition rename_if_reserved_by_dot (word : string) : string :=
  if Py.mem (Py.lower word) _DOT_RESERVED then word +:+ "_" else word.

(** ** [cflow2nx] *)

(** One parsed line: nesting level, function name, source line ([-1]
    when the line carries none). *)
Record CallLine : Type :=
  { nestLevel : Z; functionName : string; sourceLine : Z }.

(** The two local objects of [cflow2nx]. *)
Record pstate : Type := { g : DiGraph.t; stack : gmap Z string }.

Definition init : pstate := {| g := DiGraph.empty; stack := ∅ |}.

(** [s[1:-1]]. *)
Fixpoint drop_last (s : string) : string :=
  match s with
  | EmptyString => EmptyString
  | String c EmptyString => EmptyString
  | String c r => String c (drop_last r)
  end.

Definition slice_1_m1 (s : string) : string :=
  match s with
  | EmptyString => EmptyString
  | String _ r => drop_last r
  end.

(** Lines 149-153: the source line number of a line. *)
Definition src_line_no (line : string) : exn + Z :=
  match Re.findall_colon_gt line with
  | m :: _ =>
      match Py.int (slice_1_m1 m) with
      | Some n => inr n
      | None => inl ValueError
      end
  | [] => inr (-1)
  end.

(** Lines 155-157: what is left of the line for the split. *)
Definition trim (line : string) : string :=
  Re.sub_closing_brace (Re.sub_leading_brace (Re.sub_paren_to_end line)).

(** Lines 149-160: the three values read from one line. *)
Definition parse_line (line : string) : exn + CallLine :=
  match src_line_no line with
  | inl e => inl e
  | inr src =>
      match Py.split Py.tab (trim line) with
      | [nest_level; func_name] =>
          match Py.int nest_level with
          | Some n =>
              inr {| nestLevel := n; functionName := func_name;
                     sourceLine := src |}
          | None => inl ValueError
          end
      | _ => inl ValueError
      end
  end.

Definition set_stack (d : Z) (n : string) : M pstate unit :=
  modify (fun s => {| g := g s; stack := <[d := n]> (stack s) |}).

Definition get_stack (d : Z) : M pstate string :=
  try_reads (fun s => match stack s !! d with
                      | Some n => inr n
                      | None => inl (MissingAncestorError d)
                      end).

Definition on_graph (f : DiGraph.t -> DiGraph.t) : M pstate unit :=
  modify (fun s => {| g := f (g s); stack := stack s |}).

(** Lines 161-189: what the loop does with the values of one line. *)
Definition process (c : CallLine) : M pstate unit :=
  let nest_level := nestLevel c in
  let cur_node := rename_if_reserved_by_dot (functionName c) in
  set_stack nest_level cur_node ;;
  seen <- reads (fun s => DiGraph.has_node cur_node (g s)) ;;
  (if negb seen
   then on_graph (DiGraph.add_node cur_node nest_level (sourceLine c))
   else ret tt) ;;
  if negb (nest_level =? 0) then
    pred_node <- get_stack (nest_level - 1) ;;
    dup <- reads (fun s => DiGraph.has_edge pred_node cur_node (g s)) ;;
    if dup then ret tt
    else on_graph (DiGraph.add_edge pred_node cur_node)
  else ret tt.

(** The body of the loop, lines 141-189. *)
Definition loop_body (line : string) : M pstate unit :=
  if String.eqb line "" then ret tt
  else c <- try_reads (fun _ => parse_line line) ;; process c.

Definition lines_of (cflow_str : string) : list string :=
  Py.split Py.newline (Py.remove_char Py.carriage_return cflow_str).

(** [cflow2nx(cflow_str, c_fname)]: the graph it returns, or the
    exception it raises together with the objects as they then were. *)
Definition cflow2nx_lines (lines : list string) : outcome pstate DiGraph.t :=
  (for_each lines loop_body ;; reads g) init.

Definition cflow2nx (cflow_str c_fname : string) : outcome pstate DiGraph.t :=
  cflow2nx_lines (lines_of cflow_str).

(** The loop on lines that are already parsed. *)
Definition process_all (calls : list CallLine) : M pstate unit :=
  for_each calls process.

(** ** [choose_node_format] *)

(** [l[i]] on a list. *)
Definition index {A} (l : list A) (i : Z) : option A :=
  let n := Z.of_nat (length l) in
  if (0 <=? i) && (i <? n) then l !! Z.to_nat i
  else if (- n <=? i) && (i <? 0) then l !! Z.to_nat (n + i)
  else None.

Definition _escape_underscores (s : string) (for_latex : bool) : string :=
  if for_latex then Re.sub_underscore s else s.

Definition shapes : list string :=
  ["box"; "ellipse"; "octagon"; "hexagon"; "diamond"].

(** Lines 239-244. *)
Definition choose_color_shape (nest_level : Z) : option (string * string) :=
  if nest_level =? 0 then
    color ← index _COLORS 0; Some (color, "box")
  else
    color ← index _COLORS ((nest_level - 1) mod 5);
    shape ← index shapes (nest_level mod 5);
    Some (color, shape).

(** Lines 246-264. *)
Definition choose_label (node : string) (src_line : Z)
    (defined_somewhere for_latex multi_page : bool) : string :=
  let sl := "\\" in
  let label := _escape_underscores node for_latex in
  let label :=
    if negb (src_line =? -1) then
      if for_latex then label +:+ "\n" +:+ Py.str src_line
      else label +:+ "\n" +:+ Py.str src_line
    else label in
  if multi_page then
    if negb (src_line =? -1) then sl +:+ "descitem{" +:+ node +:+ "}\n" +:+ label
    else if defined_somewhere
         then sl +:+ "descref[" +:+ label +:+ "]{" +:+ node +:+ "}"
         else label
  else label.

(** [None] stands for [IndexError]. *)
Definition choose_node_format (node : string) (nest_level src_line : Z)
    (defined_somewhere for_latex multi_page : bool)
  : option (string * string * string) :=
  '(color, shape) ← choose_color_shape nest_level;
  Some (choose_label node src_line defined_somewhere for_latex multi_page,
        color, shape).

(** ** [node_defined_in_other_src] *)

(** The body of the loop, run on one graph of the list. *)
Definition defined_in (node : string) (defined_somewhere : bool)
  : M DiGraph.t bool :=
  present <- reads (DiGraph.has_node node) ;;
  if present then
    src_line <- try_reads (DiGraph.node_src_line node) ;;
    if negb (src_line =? -1) then ret true else ret defined_somewhere
  else ret defined_somewhere.

(** [for graph in other_graphs], the list of graphs being the state. *)
Fixpoint defined_loop (node : string) (defined_somewhere : bool)
    (other_graphs : list DiGraph.t) : outcome (list DiGraph.t) bool :=
  match other_graphs with
  | [] => Done defined_somewhere []
  | graph :: rest =>
      match defined_in node defined_somewhere graph with
      | Raised e graph' => Raised e (graph' :: rest)
      | Done d graph' =>
          match defined_loop node d rest with
          | Done b rest' => Done b (graph' :: rest')
          | Raised e rest' => Raised e (graph' :: rest')
          end
      end
  end.

Definition node_defined_in_other_src (node : string)
  : M (list DiGraph.t) bool :=
  defined_loop node false.

(** ** [rm_excluded_funcs] *)

(** The inner loop of [rm_excluded_funcs], on one graph. *)
Definition rm_excluded (rm_nodes : list string) (graph : DiGraph.t) : DiGraph.t :=
  fold_left (fun gr node => if DiGraph.has_node node gr
                            then DiGraph.remove_node node gr else gr)
            rm_nodes graph.

(** ** Auxiliary definitions for the statements *)

Definition cur_node_of (c : CallLine) : string :=
  rename_if_reserved_by_dot (functionName c).

(** The objects after lines 169-173: the stack entry written and the
    node added when it was new. *)
Definition after_node (c : CallLine) (s : pstate) : pstate :=
  {| g := if DiGraph.has_node (cur_node_of c) (g s) then g s
          else DiGraph.add_node (cur_node_of c) (nestLevel c) (sourceLine c) (g s);
     stack := <[nestLevel c := cur_node_of c]> (stack s) |}.

(** The graph's own invariant: a node has one entry, and a successor
    occurs once in a successor list. *)
Definition graph_wf (gr : DiGraph.t) : Prop :=
  NoDup (DiGraph.nodes gr) /\ Forall (fun p => NoDup (DiGraph.succ p.2)) gr.

(** Every node carries the attribute [src_line]. *)
Definition attributed (gr : DiGraph.t) : Prop :=
  Forall (fun p => is_Some (DiGraph.src_line (DiGraph.attr p.2))) gr.

(** Every name held by the stack is a node of the graph. *)
Definition stack_in_graph (s : pstate) : Prop :=
  forall k n, stack s !! k = Some n -> DiGraph.has_node n (g s) = true.

(** What the parser keeps true of its two objects. *)
Definition parser_inv (s : pstate) : Prop :=
  graph_wf (g s) /\ attributed (g s) /\ stack_in_graph s.


(** The call tree of the spec's first example. *)
Definition example1 : list CallLine :=
  [ {| nestLevel := 0; functionName := "main"; sourceLine := 10 |};
    {| nestLevel := 1; functionName := "foo"; sourceLine := 20 |};
    {| nestLevel := 1; functionName := "bar"; sourceLine := -1 |};
    {| nestLevel := 2; functionName := "foo"; sourceLine := 20 |} ].

(** [c in s] for a character. *)
Fixpoint occurs (c : ascii) (s : string) : bool :=
  match s with
  | EmptyString => false
  | String x r => Ascii.eqb x c || occurs c r
  end.

(** A line of [cflow] output for a file whose path has a colon. *)
Definition line_with_colon_in_path : string :=
  "{   0} main() <int main (void) at C:/src/t.c:10>:".

(** The distinct function names of an input, in order of appearance. *)
Definition distinct_names (calls : list CallLine) : list string :=
  remove_dups (map functionName calls).

(** A call tree with a function named like a reserved word and another
    named like the first one renamed. *)
Definition example_graph_names : list CallLine :=
  [ {| nestLevel := 0; functionName := "main"; sourceLine := 9 |};
    {| nestLevel := 1; functionName := "graph"; sourceLine := 1 |};
    {| nestLevel := 1; functionName := "graph_"; sourceLine := 5 |} ].

(** ** The rest of the pipeline: the dot text *)

(** The double quote, and the newline that ['\n'] stands for in the
    format strings. *)
Definition dq : string := String (ascii_of_nat 34) EmptyString.
Definition nl : string := String Py.newline EmptyString.

(** [sep.join(l)]. *)
Fixpoint join (sep : string) (l : list string) : string :=
  match l with
  | [] => EmptyString
  | [x] => x
  | x :: r => x +:+ sep +:+ join sep r
  end.

Definition _graph_name_for_latex (c_fname : string) (for_latex : bool) : string :=
  if for_latex then Re.sub_underscore c_fname else c_fname.

(** The dictionary of [_graph_node_defaults], in the order of its keys. *)
Definition _graph_node_defaults : list (string * string) :=
  [ ("peripheries", "2");
    ("style", dq +:+ "filled,rounded" +:+ dq);
    ("fontname", dq +:+ "Vera Sans Mono" +:+ dq);
    ("color", dq +:+ "#eecc80" +:+ dq) ].

Definition dot_preamble (c_fname : string) (for_latex : bool) : string :=
  let c_fname := _graph_name_for_latex c_fname for_latex in
  let d := _graph_node_defaults in
  let node_defaults := join ", " (map (fun kv => kv.1 +:+ "=" +:+ kv.2) d) in
  "digraph G {" +:+ nl
  +:+ "node [" +:+ node_defaults +:+ "];" +:+ nl
  +:+ "rankdir=LR;" +:+ nl
  +:+ "label=" +:+ dq +:+ c_fname +:+ dq +:+ nl.

(** [None] stands for the [IndexError] of [choose_node_format]. *)
Definition dot_format_node (node : string) (nest_level src_line : Z)
    (defined_somewhere for_latex multi_page : bool) : option string :=
  '(label, color, shape) ← choose_node_format node nest_level src_line
                              defined_somewhere for_latex multi_page;
  Some (node +:+ "[label=" +:+ dq +:+ label +:+ dq
        +:+ " color=" +:+ dq +:+ color +:+ dq
        +:+ " shape=" +:+ shape +:+ "];" +:+ nl +:+ nl).

Definition dot_format_edge (from_node to_node color : string) : string :=
  "edge [color=" +:+ dq +:+ color +:+ dq +:+ "];" +:+ nl +:+ nl
  +:+ from_node +:+ "->" +:+ to_node +:+ nl.

(** Lines 317-323: the text of one node, or the exception of the turn. *)
Definition dump_node (graph : DiGraph.t) (other_graphs : list DiGraph.t)
    (for_latex multi_page : bool) (node : string) : exn + string :=
  match node_defined_in_other_src node other_graphs with
  | Raised e _ => inl e
  | Done defined_somewhere _ =>
      match DiGraph.node_nest_level node graph with
      | inl e => inl e
      | inr nest_level =>
          match DiGraph.node_src_line node graph with
          | inl e => inl e
          | inr src_line =>
              match dot_format_node node nest_level src_line
                      defined_somewhere for_latex multi_page with
              | Some text => inr text
              | None => inl IndexError
              end
          end
      end
  end.

(** The loop of lines 316-323, adding to [dot_str]. *)
Fixpoint dump_nodes (graph : DiGraph.t) (other_graphs : list DiGraph.t)
    (for_latex multi_page : bool) (nodes : list string) (dot_str : string)
  : exn + string :=
  match nodes with
  | [] => inr dot_str
  | node :: rest =>
      match dump_node graph other_graphs for_latex multi_page node with
      | inl e => inl e
      | inr text =>
          dump_nodes graph other_graphs for_latex multi_page rest
            (dot_str +:+ text)
      end
  end.

(** The loop of lines 325-328. *)
Definition dump_edges (edges : list (string * string)) (dot_str : string) : string :=
  fold_left (fun acc e => acc +:+ dot_format_edge e.1 e.2 "#000000")
            edges dot_str.

Definition dump_dot_wo_pydot (graph : DiGraph.t) (other_graphs : list DiGraph.t)
    (c_fname : string) (for_latex multi_page : bool) : exn + string :=
  match dump_nodes graph other_graphs for_latex multi_page
          (DiGraph.nodes graph) (dot_preamble c_fname for_latex) with
  | inl e => inl e
  | inr dot_str => inr (dump_edges (DiGraph.edges graph) dot_str +:+ "}" +:+ nl)
  end.

(** ** The older converter [cflow2dot_old] and its helpers *)

(** [n * ' ']. *)
Fixpoint spaces (n : nat) : string :=
  match n with
  | O => EmptyString
  | S k => String " " (spaces k)
  end.

(** [s.startswith(p)]. *)
Definition startswith (s p : string) : bool := String.prefix p s.

(** [get_max_space]: the assignment [i = 0] in its loop does not change
    the iteration. *)
Definition get_max_space (lines : list string) : nat :=
  fold_left (fun space line =>
               if startswith line (spaces (space * 4)) then S space else space)
            lines O.

Fixpoint get_name (line : string) : string :=
  match line with
  | EmptyString => EmptyString
  | String c r =>
      if Ascii.eqb c " " then get_name r
      else if Ascii.eqb c "(" then EmptyString
      else String c (get_name r)
  end.

(** The two [Exception]s the converter raises by name, and the
    [IndexError] of its list accesses. *)
Inductive old_exn : Type :=
| NoPredecessor
| BugQuestion
| OldIndexError.

(** The local objects of [cflow2dot_old]: the two sets, the text so
    far, [pred_node] ([None] while it is unbound) and what was printed. *)
Record old_state : Type :=
  { o_nodes : list string;
    o_edges : list (string * string);
    o_dot : string;
    o_pred : option string;
    o_printed : list string }.

Definition old_header (filename : string) : string :=
  "digraph G {" +:+ nl
  +:+ "node [peripheries=2 style=" +:+ dq +:+ "filled,rounded" +:+ dq
  +:+ " fontname=" +:+ dq +:+ "Vera Sans Mono" +:+ dq
  +:+ " color=" +:+ dq +:+ "#eecc80" +:+ dq +:+ "];" +:+ nl
  +:+ "rankdir=LR;" +:+ nl
  +:+ "label=" +:+ dq +:+ filename +:+ dq +:+ nl
  +:+ "main [shape=box];" +:+ nl.

Definition old_init (filename : string) : old_state :=
  {| o_nodes := []; o_edges := []; o_dot := old_header filename;
     o_pred := None; o_printed := [] |}.

Definition edge_mem (e : string * string) (l : list (string * string)) : bool :=
  existsb (fun x => String.eqb x.1 e.1 && String.eqb x.2 e.2) l.

(** Lines 105-130: the body of the inner loop, for depth [i]. *)
Definition old_step (i : nat) (line : string) (st : old_state)
  : old_exn + old_state :=
  if startswith line (spaces ((i + 1) * 4))
     && negb (startswith line (spaces ((i + 2) * 4))) then
    let cur_node := get_name line in
    let st1 :=
      if Py.mem cur_node (o_nodes st) then st
      else {| o_nodes := cur_node :: o_nodes st; o_edges := o_edges st;
              o_dot := o_dot st; o_pred := o_pred st;
              o_printed := (o_printed st ++ ["New Node: " +:+ cur_node])%list |} in
    match o_pred st1 with
    | None => inl NoPredecessor
    | Some pred_node =>
        if edge_mem (pred_node, cur_node) (o_edges st1) then inr st1
        else
          match _COLORS !! (i mod 5)%nat, shapes !! (i mod 5)%nat with
          | Some color, Some shape =>
              inr {| o_nodes := o_nodes st1;
                     o_edges := (pred_node, cur_node) :: o_edges st1;
                     o_dot := o_dot st1
                              +:+ "node [color=" +:+ dq +:+ color +:+ dq
                              +:+ " shape=" +:+ shape +:+ "];edge [color="
                              +:+ dq +:+ color +:+ dq +:+ "];" +:+ nl
                              +:+ pred_node +:+ "->" +:+ cur_node +:+ nl;
                     o_pred := o_pred st1;
                     o_printed := o_printed st1 |}
          | _, _ => inl OldIndexError
          end
    end
  else if startswith line (spaces (i * 4)) then
    inr {| o_nodes := o_nodes st; o_edges := o_edges st; o_dot := o_dot st;
           o_pred := Some (get_name line); o_printed := o_printed st |}
  else inl BugQuestion.

(** The inner loop over the lines, and the outer loop over the depths. *)
Fixpoint old_pass (i : nat) (lines : list string) (st : old_state)
  : old_exn + old_state :=
  match lines with
  | [] => inr st
  | line :: rest =>
      match old_step i line st with
      | inl e => inl e
      | inr st' => old_pass i rest st'
      end
  end.

Fixpoint old_passes (depths : list nat) (lines : list string) (st : old_state)
  : old_exn + old_state :=
  match depths with
  | [] => inr st
  | i :: rest =>
      match old_pass i lines st with
      | inl e => inl e
      | inr st' => old_passes rest lines st'
      end
  end.

(** [cflow2dot_old(data, offset, filename)]: the text it returns with
    what it printed, or the exception it raises. *)
Definition cflow2dot_old (data : string) (offset : bool) (filename : string)
  : old_exn + (string * list string) :=
  let lines := lines_of data in
  let max_space := get_max_space lines in
  match old_passes (seq 0 max_space) lines (old_init filename) with
  | inl e => inl e
  | inr st => inr (o_dot st +:+ "}" +:+ nl, o_printed st)
  end.

(** ** Further definitions for the statements *)

(** Every node carries both attributes the formatter reads. *)
Definition has_both_attrs (gr : DiGraph.t) : Prop :=
  Forall (fun p => is_Some (DiGraph.nest_level (DiGraph.attr p.2))
                   /\ is_Some (DiGraph.src_line (DiGraph.attr p.2))) gr.

(** Every edge ends in a node of the graph. *)
Definition edges_closed (gr : DiGraph.t) : Prop :=
  forall u v, (u, v) ∈ DiGraph.edges gr -> v ∈ DiGraph.nodes gr.

(** The identifier of the last line of [calls] at depth [d]. *)
Definition last_at (d : Z) (calls : list CallLine) : option string :=
  fold_left (fun acc c => if nestLevel c =? d then Some (cur_node_of c) else acc)
            calls None.

(** The first line of [calls] with identifier [n]. *)
Definition first_line_of (n : string) (calls : list CallLine) : option CallLine :=
  find (fun c => String.eqb (cur_node_of c) n) calls.

(** The elements of a list in order of first appearance. *)
Fixpoint first_seen (l : list string) : list string :=
  match l with
  | [] => []
  | x :: r => x :: filter (fun y => y <> x) (first_seen r)
  end.

(** The lines the loop does not skip. *)
Definition non_blank (lines : list string) : list string :=
  filter (fun l => l <> EmptyString) lines.

Fixpoint all_chars (p : ascii -> bool) (s : string) : bool :=
  match s with
  | EmptyString => true
  | String c r => p c && all_chars p r
  end.

(** The first character of [s], if any, is no white space. *)
Definition starts_solid (s : string) : bool :=
  match s with
  | EmptyString => true
  | String c _ => negb (Py.is_space c)
  end.

(** * Properties *)

(** ** The built-ins on examples *)

Example int_examples :
  Py.int "10" = Some 10 /\ Py.int " -7 " = Some (-7) /\ Py.int "1_000" = Some 1000
  /\ Py.int "" = None /\ Py.int "1__0" = None /\ Py.int "b.c:10" = None
  /\ Py.int "010" = Some 10 /\ Py.int "+ 1" = None /\ Py.int "1_" = None.
Proof. repeat split; reflexivity. Qed.

Example str_examples :
  Py.str 0 = "0" /\ Py.str 42 = "42" /\ Py.str (-1) = "-1" /\ Py.str 100 = "100".
Proof. repeat split; reflexivity. Qed.

Example split_examples :
  Py.split "," "a,b" = ["a"; "b"] /\ Py.split "," "" = [""]
  /\ Py.split "," "a,,b," = ["a"; ""; "b"; ""].
Proof. repeat split; reflexivity. Qed.

Example trim_examples :
  trim "{   12}   foo_bar() <void foo_bar (void) at a.c:3>:" = String.append "12" (String Py.tab "foo_bar")
  /\ Re.findall_colon_gt "    f() <int f (int) at test.c:1> (recursive: see 2)" = [":1>"]
  /\ Re.findall_colon_gt "a:b>c:d>e" = [":b>c:d>"]
  /\ Re.findall_colon_gt "{   1}     bar()" = [].
Proof. repeat split; reflexivity. Qed.

(** ** The loop and the monad *)

Section Loop.
Context {S A : Type} (body : A -> M S unit).

Lemma for_each_app (l1 l2 : list A) (s : S) :
  for_each (l1 ++ l2)%list body s =
  match for_each l1 body s with
  | Done _ s' => for_each l2 body s'
  | Raised e s' => Raised e s'
  end.
Proof.
  revert s. induction l1 as [|x l1 IH]; intros s; simpl; [reflexivity|].
  unfold bind. destruct (body x s) as [[] s'|e s']; [apply IH | reflexivity].
Qed.

Lemma for_each_cons (x : A) (l : list A) (s : S) :
  for_each (x :: l) body s =
  match body x s with
  | Done _ s' => for_each l body s'
  | Raised e s' => Raised e s'
  end.
Proof. reflexivity. Qed.

(** A property of the state kept by every turn of the loop holds when
    the loop ends, however it ends. *)
Lemma for_each_invariant (P : S -> Prop) :
  (forall x s, P s -> P (state_of (body x s))) ->
  forall l s, P s -> P (state_of (for_each l body s)).
Proof.
  intros Hbody l. induction l as [|x l IH]; intros s Hs; simpl; [exact Hs|].
  unfold bind. specialize (Hbody x s Hs).
  destruct (body x s) as [[] s'|e s']; simpl in *; [apply IH|]; assumption.
Qed.

(** A loop that raises does so in one of its turns, after the turns
    before it went through. *)
Lemma for_each_raised (l : list A) (s : S) (e : exn) (s' : S) :
  for_each l body s = Raised e s' ->
  exists pre x post s0,
    l = (pre ++ x :: post)%list /\ for_each pre body s = Done tt s0
    /\ body x s0 = Raised e s'.
Proof.
  revert s. induction l as [|x l IH]; intros s; simpl; [discriminate|].
  unfold bind. destruct (body x s) as [[] s1|e1 s1] eqn:Hx.
  - intros H. destruct (IH _ H) as (pre & y & post & s0 & -> & Hpre & Hy).
    exists (x :: pre), y, post, s0. repeat split; [|exact Hy].
    simpl. unfold bind. rewrite Hx. exact Hpre.
  - intros [= <- <-]. exists [], x, l, s. repeat split. exact Hx.
Qed.
End Loop.

(** ** One line of the loop, as an equation *)

Lemma process_eq (c : CallLine) (s : pstate) :
  process c s =
  let s1 := after_node c s in
  if nestLevel c =? 0 then Done tt s1
  else match stack s1 !! (nestLevel c - 1) with
       | None => Raised (MissingAncestorError (nestLevel c - 1)) s1
       | Some p =>
           if DiGraph.has_edge p (cur_node_of c) (g s1) then Done tt s1
           else Done tt {| g := DiGraph.add_edge p (cur_node_of c) (g s1);
                           stack := stack s1 |}
       end.
Proof.
  unfold process, after_node, bind, set_stack, get_stack, on_graph, modify,
    reads, try_reads, ret, cur_node_of; simpl.
  destruct (DiGraph.has_node _ (g s)); simpl;
    destruct (nestLevel c =? 0); simpl; try reflexivity;
    match goal with |- context [?m !! ?k] => destruct (m !! k) end;
    simpl; try reflexivity;
    match goal with |- context [DiGraph.has_edge ?a ?b ?c] =>
      destruct (DiGraph.has_edge a b c) end; reflexivity.
Qed.

(** The loop body either skips the line, raises [ValueError] with the
    objects untouched, or does what [process] does. *)
Lemma loop_body_cases (line : string) (s : pstate) :
  loop_body line s = Done tt s
  \/ loop_body line s = Raised ValueError s
  \/ exists c, parse_line line = inr c /\ loop_body line s = process c s.
Proof.
  unfold loop_body. destruct (String.eqb line ""); [left; reflexivity|].
  unfold bind, try_reads.
  destruct (parse_line line) as [e|c] eqn:Hp.
  - right; left. f_equal.
    unfold parse_line in Hp. destruct (src_line_no line) as [e'|z] eqn:Hs.
    + unfold src_line_no in Hs.
      destruct (Re.findall_colon_gt line); [discriminate|].
      destruct (Py.int _); congruence.
    + repeat (match type of Hp with
              | match ?x with _ => _ end = _ => destruct x
              end; try congruence).
  - right; right. exists c. split; reflexivity.
Qed.

(** ** Facts on the graph operations *)

Section GraphFacts.
Import DiGraph.

Lemma get_app (n : string) (g1 g2 : t) :
  get n (g1 ++ g2)%list =
  match get n g1 with Some d => Some d | None => get n g2 end.
Proof.
  induction g1 as [|[m d] g1 IH]; simpl; [reflexivity|].
  destruct (String.eqb n m); [reflexivity | exact IH].
Qed.

Lemma get_elem (n : string) (d : node_data) (gr : t) :
  get n gr = Some d -> (n, d) ∈ gr.
Proof.
  induction gr as [|[m d'] gr IH]; simpl; [discriminate|].
  destruct (String.eqb_spec n m) as [->|Hne].
  - intros [= ->]. left.
  - intros H. right. auto.
Qed.

Lemma has_node_nodes (n : string) (gr : t) :
  has_node n gr = true <-> n ∈ nodes gr.
Proof.
  unfold has_node, nodes. induction gr as [|[m d] gr IH]; simpl.
  - split; [discriminate | intros H; inversion H].
  - destruct (String.eqb_spec n m) as [->|Hne].
    + split; [left | reflexivity].
    + rewrite IH. split; [right; assumption|].
      intros H. inversion H; subst; [contradiction | assumption].
Qed.

Lemma has_node_false (n : string) (gr : t) :
  has_node n gr = false <-> n ∉ nodes gr.
Proof.
  rewrite <- has_node_nodes. destruct (has_node n gr); split; congruence.
Qed.

Lemma nodes_update (n : string) (f : node_data -> node_data) (gr : t) :
  nodes (update n f gr) = nodes gr.
Proof.
  unfold nodes. induction gr as [|[m d] gr IH]; simpl; [reflexivity|].
  destruct (String.eqb n m); simpl; congruence.
Qed.

Lemma get_update (n m : string) (f : node_data -> node_data) (gr : t) :
  get m (update n f gr) =
  if String.eqb m n then f <$> get m gr else get m gr.
Proof.
  induction gr as [|[k d] gr IH]; simpl.
  - destruct (String.eqb m n); reflexivity.
  - destruct (String.eqb_spec n k) as [->|Hnk]; simpl.
    + destruct (String.eqb_spec m k) as [->|Hmk]; reflexivity.
    + destruct (String.eqb_spec m k) as [->|Hmk].
      * destruct (String.eqb_spec k n); [congruence | reflexivity].
      * exact IH.
Qed.

Lemma has_node_update (n m : string) (f : node_data -> node_data) (gr : t) :
  has_node m (update n f gr) = has_node m gr.
Proof.
  unfold has_node. rewrite get_update.
  destruct (String.eqb m n); [|reflexivity]. destruct (get m gr); reflexivity.
Qed.

Lemma has_node_app (n : string) (g1 g2 : t) :
  has_node n (g1 ++ g2)%list = has_node n g1 || has_node n g2.
Proof. unfold has_node. rewrite get_app. destruct (get n g1); reflexivity. Qed.

Lemma has_node_add_node (n m : string) (nl sl : Z) (gr : t) :
  has_node m (add_node n nl sl gr) = String.eqb m n || has_node m gr.
Proof.
  unfold add_node. destruct (has_node n gr) eqn:Hn.
  - rewrite has_node_update.
    destruct (String.eqb_spec m n) as [->|]; [rewrite Hn|]; reflexivity.
  - rewrite has_node_app. unfold has_node at 2; simpl.
    destruct (String.eqb m n); destruct (has_node m gr); reflexivity.
Qed.

Lemma has_node_ensure_node (n m : string) (gr : t) :
  has_node m (ensure_node n gr) = String.eqb m n || has_node m gr.
Proof.
  unfold ensure_node. destruct (has_node n gr) eqn:Hn.
  - destruct (String.eqb_spec m n) as [->|]; [rewrite Hn|]; reflexivity.
  - rewrite has_node_app. unfold has_node at 2; simpl.
    destruct (String.eqb m n); destruct (has_node m gr); reflexivity.
Qed.

Lemma ensure_node_present (n : string) (gr : t) :
  has_node n gr = true -> ensure_node n gr = gr.
Proof. unfold ensure_node. intros ->. reflexivity. Qed.

Lemma has_node_add_edge (u v m : string) (gr : t) :
  has_node m (add_edge u v gr) =
  String.eqb m v || String.eqb m u || has_node m gr.
Proof.
  unfold add_edge. rewrite has_node_update, !has_node_ensure_node.
  rewrite orb_assoc. reflexivity.
Qed.

Lemma mem_In (x : string) (l : list string) : Py.mem x l = true <-> x ∈ l.
Proof.
  unfold Py.mem. rewrite existsb_exists. split.
  - intros (y & Hy & Heq). apply String.eqb_eq in Heq. subst.
    apply list_elem_of_In, Hy.
  - intros H. exists x. split; [apply list_elem_of_In, H | apply String.eqb_refl].
Qed.

Lemma has_edge_add_edge (u v : string) (gr : t) :
  has_edge u v (add_edge u v gr) = true.
Proof.
  unfold has_edge, add_edge. rewrite get_update, String.eqb_refl.
  assert (Hu : has_node u (ensure_node v (ensure_node u gr)) = true).
  { rewrite !has_node_ensure_node, String.eqb_refl.
    destruct (String.eqb u v); reflexivity. }
  unfold has_node in Hu.
  destruct (get u (ensure_node v (ensure_node u gr))) as [d|]; [|discriminate].
  simpl. destruct (Py.mem v (succ d)) eqn:Hm; [exact Hm|].
  apply mem_In, elem_of_app. right. left.
Qed.

(** Edges. *)

Lemma edges_app (g1 g2 : t) : edges (g1 ++ g2)%list = (edges g1 ++ edges g2)%list.
Proof. unfold edges. apply flat_map_app. Qed.

Lemma edges_add_new_node (n : string) (a : attrs) (gr : t) :
  edges (gr ++ [(n, {| attr := a; succ := [] |})])%list = edges gr.
Proof. rewrite edges_app. simpl. apply app_nil_r. Qed.

Lemma edges_update_attr (n : string) (a : attrs) (gr : t) :
  edges (update n (fun d => {| attr := a; succ := succ d |}) gr) = edges gr.
Proof.
  induction gr as [|[m d] gr IH]; simpl; [reflexivity|].
  destruct (String.eqb n m); simpl; [reflexivity|]. rewrite IH. reflexivity.
Qed.

Lemma edges_add_node (n : string) (nl sl : Z) (gr : t) :
  edges (add_node n nl sl gr) = edges gr.
Proof.
  unfold add_node. destruct (has_node n gr);
    [apply edges_update_attr | apply edges_add_new_node].
Qed.

Lemma edges_ensure_node (n : string) (gr : t) :
  edges (ensure_node n gr) = edges gr.
Proof.
  unfold ensure_node. destruct (has_node n gr);
    [reflexivity | apply edges_add_new_node].
Qed.

Lemma elem_of_edges (u v : string) (gr : t) :
  (u, v) ∈ edges gr <-> exists d, (u, d) ∈ gr /\ v ∈ succ d.
Proof.
  unfold edges. rewrite list_elem_of_In, in_flat_map. split.
  - intros ([m d] & Hin & Hm). apply in_map_iff in Hm as (w & [= -> ->] & Hw).
    exists d. split; apply list_elem_of_In; assumption.
  - intros (d & Hin & Hv). exists (u, d). split; [apply list_elem_of_In, Hin|].
    apply in_map_iff. exists v. split; [reflexivity | apply list_elem_of_In, Hv].
Qed.

Lemma edge_source_is_node (u v : string) (gr : t) :
  (u, v) ∈ edges gr -> u ∈ nodes gr.
Proof.
  rewrite elem_of_edges. intros (d & Hin & _).
  unfold nodes. apply list_elem_of_In, in_map_iff. exists (u, d).
  split; [reflexivity | apply list_elem_of_In, Hin].
Qed.

(** A well-formed graph lists no edge twice. *)
Lemma wf_edges_NoDup (gr : t) : graph_wf gr -> NoDup (edges gr).
Proof.
  unfold graph_wf. induction gr as [|[u d] gr IH]; simpl.
  - intros _. constructor.
  - intros [Hn Hs]. inversion Hn as [|? ? Hu Hn']; subst.
    inversion Hs as [|? ? Hd Hs']; subst. simpl in Hd.
    apply NoDup_app. split; [|split].
    + change (map (pair u) (succ d)) with ((pair u) <$> succ d).
      apply NoDup_fmap_2; [|exact Hd]. intros x y [= ->]. reflexivity.
    + intros [a b] Ha Hb.
      apply list_elem_of_In, in_map_iff in Ha as (w & [= <- <-] & _).
      apply Hu. apply edge_source_is_node in Hb. exact Hb.
    + apply IH. split; assumption.
Qed.
End GraphFacts.

(** ** What the parser keeps true *)

Section Invariant.
Import DiGraph.

Lemma wf_update (n : string) (f : node_data -> node_data) (gr : t) :
  (forall d, NoDup (succ d) -> NoDup (succ (f d))) ->
  graph_wf gr -> graph_wf (update n f gr).
Proof.
  intros Hf [Hn Hs]. split; [rewrite nodes_update; exact Hn|].
  clear Hn. induction Hs as [|[m d] gr Hd Hs IH]; simpl; [constructor|].
  destruct (String.eqb n m); constructor; simpl in *; auto.
Qed.

Lemma wf_app_new (n : string) (a : attrs) (gr : t) :
  has_node n gr = false -> graph_wf gr ->
  graph_wf (gr ++ [(n, {| attr := a; succ := [] |})])%list.
Proof.
  intros Hn [Hnd Hs]. split.
  - unfold nodes in *. rewrite map_app. simpl. apply NoDup_app.
    split; [exact Hnd|]. split; [|apply NoDup_singleton].
    intros x Hx Hx'. apply list_elem_of_singleton in Hx' as ->.
    apply has_node_false in Hn. exact (Hn Hx).
  - apply Forall_app. split; [exact Hs|]. repeat constructor.
Qed.

Lemma wf_add_node (n : string) (nl sl : Z) (gr : t) :
  graph_wf gr -> graph_wf (add_node n nl sl gr).
Proof.
  intros H. unfold add_node. destruct (has_node n gr) eqn:Hn.
  - apply wf_update; [|exact H]. intros d Hd. exact Hd.
  - apply wf_app_new; assumption.
Qed.

Lemma wf_ensure_node (n : string) (gr : t) :
  graph_wf gr -> graph_wf (ensure_node n gr).
Proof.
  intros H. unfold ensure_node. destruct (has_node n gr) eqn:Hn;
    [exact H | apply wf_app_new; assumption].
Qed.

Lemma wf_add_edge (u v : string) (gr : t) :
  graph_wf gr -> graph_wf (add_edge u v gr).
Proof.
  intros H. unfold add_edge. apply wf_update.
  - intros d Hd. simpl. destruct (Py.mem v (succ d)) eqn:Hm; [exact Hd|].
    apply NoDup_app. split; [exact Hd|]. split; [|apply NoDup_singleton].
    intros x Hx Hx'. apply list_elem_of_singleton in Hx' as ->.
    apply mem_In in Hx. congruence.
  - apply wf_ensure_node, wf_ensure_node, H.
Qed.

Lemma attributed_update (n : string) (f : node_data -> node_data) (gr : t) :
  (forall d, is_Some (src_line (attr d)) -> is_Some (src_line (attr (f d)))) ->
  attributed gr -> attributed (update n f gr).
Proof.
  intros Hf H. induction H as [|[m d] gr Hd H IH]; simpl; [constructor|].
  destruct (String.eqb n m); constructor; simpl in *; auto.
Qed.

Lemma attributed_add_node (n : string) (nl sl : Z) (gr : t) :
  attributed gr -> attributed (add_node n nl sl gr).
Proof.
  intros H. unfold add_node. destruct (has_node n gr).
  - apply attributed_update; [|exact H]. intros d _. simpl. eauto.
  - apply Forall_app. split; [exact H|]. repeat constructor. simpl. eauto.
Qed.

(** Between two nodes of the graph, [add_edge] creates no node. *)
Lemma attributed_add_edge (u v : string) (gr : t) :
  has_node u gr = true -> has_node v gr = true ->
  attributed gr -> attributed (add_edge u v gr).
Proof.
  intros Hu Hv H. unfold add_edge.
  rewrite (ensure_node_present u gr Hu), (ensure_node_present v gr Hv).
  apply attributed_update; [|exact H]. intros d Hd. exact Hd.
Qed.

Lemma attributed_src_line (n : string) (gr : t) :
  attributed gr -> has_node n gr = true ->
  exists l, node_src_line n gr = inr l.
Proof.
  unfold has_node, node_src_line. intros H Hn.
  destruct (get n gr) as [d|] eqn:Hg; [|discriminate].
  apply get_elem in Hg. unfold attributed in H.
  rewrite Forall_forall in H. destruct (H _ Hg) as [l Hl]. simpl in Hl.
  rewrite Hl. eauto.
Qed.

Lemma has_node_after_node (c : CallLine) (s : pstate) (n : string) :
  has_node n (g (after_node c s)) =
  String.eqb n (cur_node_of c) || has_node n (g s).
Proof.
  unfold after_node; simpl.
  destruct (has_node (cur_node_of c) (g s)) eqn:Hc.
  - destruct (String.eqb_spec n (cur_node_of c)) as [->|]; [rewrite Hc|]; reflexivity.
  - apply has_node_add_node.
Qed.

Lemma edges_after_node (c : CallLine) (s : pstate) :
  edges (g (after_node c s)) = edges (g s).
Proof.
  unfold after_node; simpl.
  destruct (has_node (cur_node_of c) (g s)); [reflexivity | apply edges_add_node].
Qed.

Lemma after_node_inv (c : CallLine) (s : pstate) :
  parser_inv s -> parser_inv (after_node c s).
Proof.
  intros (Hwf & Hat & Hst). split; [|split].
  - unfold after_node; simpl. destruct (has_node _ (g s));
      [exact Hwf | apply wf_add_node, Hwf].
  - unfold after_node; simpl. destruct (has_node _ (g s));
      [exact Hat | apply attributed_add_node, Hat].
  - intros k n Hk. rewrite has_node_after_node.
    unfold after_node in Hk; simpl in Hk.
    destruct (decide (nestLevel c = k)) as [<-|Hne].
    + rewrite lookup_insert_eq in Hk. injection Hk as <-.
      rewrite String.eqb_refl. reflexivity.
    + rewrite lookup_insert_ne in Hk by exact Hne.
      rewrite (Hst _ _ Hk). apply orb_true_r.
Qed.

Lemma process_inv (c : CallLine) (s : pstate) :
  parser_inv s -> parser_inv (state_of (process c s)).
Proof.
  intros H. apply (after_node_inv c) in H. rewrite process_eq. cbv zeta.
  set (s1 := after_node c s) in *.
  destruct (nestLevel c =? 0); [exact H|].
  destruct (stack s1 !! (nestLevel c - 1)) as [p|] eqn:Hp; [|exact H].
  destruct (has_edge p (cur_node_of c) (g s1)); [exact H|].
  destruct H as (Hwf & Hat & Hst).
  assert (Hc : has_node (cur_node_of c) (g s1) = true).
  { unfold s1. rewrite has_node_after_node, String.eqb_refl. reflexivity. }
  split; [|split]; cbn [state_of g stack].
  - apply wf_add_edge, Hwf.
  - apply attributed_add_edge; [exact (Hst _ _ Hp) | exact Hc | exact Hat].
  - intros k n Hk. cbn [state_of g stack] in *.
    rewrite has_node_add_edge, (Hst _ _ Hk).
    rewrite !orb_true_r. reflexivity.
Qed.

Lemma init_inv : parser_inv init.
Proof.
  split; [|split].
  - split; constructor.
  - constructor.
  - intros k n Hk. simpl in Hk. rewrite lookup_empty in Hk. discriminate.
Qed.

Lemma loop_body_inv (line : string) (s : pstate) :
  parser_inv s -> parser_inv (state_of (loop_body line s)).
Proof.
  intros H. destruct (loop_body_cases line s) as [-> | [-> | (c & _ & ->)]];
    [exact H | exact H | apply process_inv, H].
Qed.

Lemma process_all_inv (calls : list CallLine) (s : pstate) :
  parser_inv s -> parser_inv (state_of (process_all calls s)).
Proof. apply for_each_invariant. intros x s'. apply process_inv. Qed.

(** The graph [cflow2nx] returns is well formed and its nodes all
    carry a source line. *)
Lemma cflow2nx_inv (cflow_str c_fname : string) (gr : t) (s : pstate) :
  cflow2nx cflow_str c_fname = Done gr s -> gr = g s /\ parser_inv s.
Proof.
  unfold cflow2nx, cflow2nx_lines, bind, reads. intros H.
  pose proof (for_each_invariant loop_body parser_inv loop_body_inv
                (lines_of cflow_str) init init_inv) as Hinv.
  destruct (for_each (lines_of cflow_str) loop_body init) as [[] s'|e s'];
    [|discriminate].
  injection H as <- <-. split; [reflexivity | exact Hinv].
Qed.
End Invariant.

(** ** From lines of text to parsed lines *)

Lemma parse_line_nonempty (line : string) (c : CallLine) :
  parse_line line = inr c -> String.eqb line "" = false.
Proof.
  destruct line; [vm_compute; discriminate | reflexivity].
Qed.

Lemma loop_body_parsed (line : string) (c : CallLine) (s : pstate) :
  parse_line line = inr c -> loop_body line s = process c s.
Proof.
  intros H. unfold loop_body. rewrite (parse_line_nonempty _ _ H).
  unfold bind, try_reads. rewrite H. reflexivity.
Qed.

Lemma for_each_parsed (lines : list string) (calls : list CallLine) (s : pstate) :
  Forall2 (fun l c => parse_line l = inr c) lines calls ->
  for_each lines loop_body s = process_all calls s.
Proof.
  intros H. revert s. unfold process_all.
  induction H as [|l c lines calls Hl _ IH]; intros s; simpl; [reflexivity|].
  unfold bind. rewrite (loop_body_parsed _ _ _ Hl).
  destruct (process c s) as [[] s'|e s']; [apply IH | reflexivity].
Qed.

(** ** The first example *)

(** C1. Four lines that parse to (0, main, 10), (1, foo, 20),
    (1, bar, -1), (2, foo, 20) give a graph whose nodes are exactly
    main, foo, bar and whose edges are exactly main->foo, main->bar,
    bar->foo. *)
Theorem example1_graph (l1 l2 l3 l4 : string) :
  Forall2 (fun l c => parse_line l = inr c) [l1; l2; l3; l4] example1 ->
  exists s,
    cflow2nx_lines [l1; l2; l3; l4] = Done (g s) s
    /\ DiGraph.nodes (g s) = ["main"; "foo"; "bar"]
    /\ DiGraph.edges (g s) = [("main", "foo"); ("main", "bar"); ("bar", "foo")].
Proof.
  intros H. unfold cflow2nx_lines, bind.
  rewrite (for_each_parsed _ _ _ H).
  destruct (process_all example1 init) as [[] s|e s] eqn:Hrun;
    [|vm_compute in Hrun; discriminate].
  exists s. split; [reflexivity|].
  assert (Hg : g s = g (state_of (process_all example1 init)))
    by (rewrite Hrun; reflexivity).
  rewrite Hg. split; vm_compute; reflexivity.
Qed.

Lemma example1_graph_witness :
  exists s,
    cflow2nx_lines
      [ "{   0} main() <int main (void) at t.c:10>:";
        "{   1}     foo() <void foo (void) at t.c:20>:";
        "{   1}     bar()";
        "{   2}         foo() <void foo (void) at t.c:20>:" ] = Done (g s) s
    /\ DiGraph.nodes (g s) = ["main"; "foo"; "bar"]
    /\ DiGraph.edges (g s) = [("main", "foo"); ("main", "bar"); ("bar", "foo")].
Proof.
  apply example1_graph.
  repeat (constructor; [vm_compute; reflexivity|]). constructor.
Defined.

(** ** The stack *)

Lemma stack_after_process (c : CallLine) (s : pstate) :
  stack (state_of (process c s)) = <[nestLevel c := cur_node_of c]> (stack s).
Proof.
  rewrite process_eq. cbv zeta.
  destruct (nestLevel c =? 0); [reflexivity|].
  destruct (stack (after_node c s) !! (nestLevel c - 1)); [|reflexivity].
  destruct (DiGraph.has_edge _ _ _); reflexivity.
Qed.

(** A depth that no line of [calls] is at keeps its entry. *)
Lemma stack_untouched (k : Z) (calls : list CallLine) (s : pstate) :
  (forall x, x ∈ calls -> nestLevel x <> k) ->
  stack (state_of (process_all calls s)) !! k = stack s !! k.
Proof.
  unfold process_all. revert s.
  induction calls as [|c calls IH]; intros s Hk; simpl; [reflexivity|].
  assert (Hc : nestLevel c <> k) by (apply Hk; left).
  pose proof (stack_after_process c s) as Hs.
  unfold bind. destruct (process c s) as [[] s'|e s']; simpl in Hs.
  - rewrite IH by (intros x Hx; apply Hk; right; exact Hx).
    rewrite Hs, lookup_insert_ne by exact Hc. reflexivity.
  - simpl. rewrite Hs, lookup_insert_ne by exact Hc. reflexivity.
Qed.

(** The only exception [process] raises is the missing ancestor, after
    lines 169-173 have run. *)
Lemma process_raised (c : CallLine) (s : pstate) (e : exn) (s' : pstate) :
  process c s = Raised e s' ->
  e = MissingAncestorError (nestLevel c - 1) /\ s' = after_node c s
  /\ nestLevel c <> 0 /\ stack s !! (nestLevel c - 1) = None.
Proof.
  rewrite process_eq. cbv zeta.
  destruct (nestLevel c =? 0) eqn:Hz; [discriminate|].
  destruct (stack (after_node c s) !! (nestLevel c - 1)) eqn:Hp.
  - destruct (DiGraph.has_edge _ _ _); discriminate.
  - intros [= <- <-]. apply Z.eqb_neq in Hz. repeat split; [exact Hz|].
    unfold after_node in Hp; simpl in Hp.
    rewrite lookup_insert_ne in Hp by lia. exact Hp.
Qed.

Lemma process_missing (c : CallLine) (s : pstate) :
  nestLevel c <> 0 -> stack s !! (nestLevel c - 1) = None ->
  process c s = Raised (MissingAncestorError (nestLevel c - 1)) (after_node c s).
Proof.
  intros Hz Hp. rewrite process_eq. cbv zeta.
  apply Z.eqb_neq in Hz. rewrite Hz.
  unfold after_node at 1; simpl. rewrite lookup_insert_ne by lia.
  rewrite Hp. reflexivity.
Qed.

(** ** A missing ancestor *)

(** C2, as the code has it. An input with a line at a depth d > 0 that
    no earlier line at depth d-1 precedes fails with
    [MissingAncestorError]. The line [c'] that raises is that line or an
    earlier one; when the error is raised, the name of [c'] has been
    written to the stack and its node is in the graph, and no edge has
    been added for it. *)
Theorem missing_ancestor_raises (pre : list CallLine) (c : CallLine)
    (post : list CallLine) :
  nestLevel c > 0 ->
  (forall x, x ∈ pre -> nestLevel x <> nestLevel c - 1) ->
  exists pre' c' post' s0 s,
    (pre ++ c :: post)%list = (pre' ++ c' :: post')%list
    /\ (length pre' <= length pre)%nat
    /\ process_all pre' init = Done tt s0
    /\ process_all (pre ++ c :: post) init
       = Raised (MissingAncestorError (nestLevel c' - 1)) s
    /\ stack s = <[nestLevel c' := cur_node_of c']> (stack s0)
    /\ DiGraph.has_node (cur_node_of c') (g s) = true
    /\ DiGraph.edges (g s) = DiGraph.edges (g s0).
Proof.
  intros Hd Hpre. unfold process_all at 2. rewrite for_each_app.
  destruct (for_each pre process init) as [[] s0|e s] eqn:Hrun.
  - exists pre, c, post, s0, (after_node c s0).
    assert (Hnone : stack s0 !! (nestLevel c - 1) = None).
    { pose proof (stack_untouched (nestLevel c - 1) pre init Hpre) as H.
      unfold process_all in H. rewrite Hrun in H. simpl in H.
      rewrite H. apply lookup_empty. }
    rewrite for_each_cons, (process_missing c s0) by (lia || exact Hnone).
    repeat split; try reflexivity; try exact Hrun; try lia.
    + rewrite has_node_after_node, String.eqb_refl. reflexivity.
    + apply edges_after_node.
  - destruct (for_each_raised _ _ _ _ _ Hrun) as (p & x & q & s0 & -> & Hp & Hx).
    destruct (process_raised _ _ _ _ Hx) as (-> & -> & _ & _).
    exists p, x, (q ++ c :: post)%list, s0, (after_node x s0).
    repeat split; try reflexivity; try exact Hp.
    + rewrite <- app_assoc. reflexivity.
    + rewrite length_app. lia.
    + rewrite has_node_after_node, String.eqb_refl. reflexivity.
    + apply edges_after_node.
Qed.

Lemma missing_ancestor_raises_witness :
  exists pre' c' post' s0 s,
    ([ {| nestLevel := 0; functionName := "main"; sourceLine := 10 |} ]
       ++ {| nestLevel := 2; functionName := "foo"; sourceLine := 20 |} :: [])%list
      = (pre' ++ c' :: post')%list
    /\ (length pre' <= 1)%nat
    /\ process_all pre' init = Done tt s0
    /\ process_all
         ([ {| nestLevel := 0; functionName := "main"; sourceLine := 10 |} ]
            ++ {| nestLevel := 2; functionName := "foo"; sourceLine := 20 |} :: [])
         init
       = Raised (MissingAncestorError (nestLevel c' - 1)) s
    /\ stack s = <[nestLevel c' := cur_node_of c']> (stack s0)
    /\ DiGraph.has_node (cur_node_of c') (g s) = true
    /\ DiGraph.edges (g s) = DiGraph.edges (g s0).
Proof.
  apply (missing_ancestor_raises
           [ {| nestLevel := 0; functionName := "main"; sourceLine := 10 |} ]
           {| nestLevel := 2; functionName := "foo"; sourceLine := 20 |} []).
  - simpl. lia.
  - intros x Hx. apply list_elem_of_singleton in Hx. subst x. simpl. lia.
Defined.

(** C2, as stated, fails on the input (0, main, 10), (2, foo, 20): when
    the error is raised the node foo of the offending line is already in
    the graph. *)
Lemma missing_ancestor_node_already_added :
  let input :=
    [ {| nestLevel := 0; functionName := "main"; sourceLine := 10 |};
      {| nestLevel := 2; functionName := "foo"; sourceLine := 20 |} ] in
  (exists s, process_all input init = Raised (MissingAncestorError 1) s
             /\ DiGraph.nodes (g s) = ["main"; "foo"])
  /\ ~ (exists k s, process_all input init = Raised (MissingAncestorError k) s
                    /\ DiGraph.has_node "foo" (g s) = false).
Proof.
  cbv zeta. split.
  - eexists. split; [vm_compute; reflexivity | reflexivity].
  - intros (k & s & Hrun & Hfoo).
    assert (H : DiGraph.has_node "foo" (g (state_of (process_all
       [ {| nestLevel := 0; functionName := "main"; sourceLine := 10 |};
         {| nestLevel := 2; functionName := "foo"; sourceLine := 20 |} ] init)))
       = true) by (vm_compute; reflexivity).
    rewrite Hrun in H. simpl in H. congruence.
Qed.

Example missing_ancestor_from_text :
  exists s,
    cflow2nx_lines ["{   0} main() <int main (void) at t.c:10>:";
                    "{   2}         foo() <void foo (void) at t.c:20>:"]
    = Raised (MissingAncestorError 1) s
    /\ DiGraph.nodes (g s) = ["main"; "foo"]
    /\ DiGraph.edges (g s) = [].
Proof. eexists. split; [vm_compute; reflexivity | split; reflexivity]. Qed.

(** ** No parallel edges *)

Lemma has_edge_after_node (c : CallLine) (s : pstate) (u v : string) :
  DiGraph.has_edge u v (g s) = true ->
  DiGraph.has_edge u v (g (after_node c s)) = true.
Proof.
  unfold after_node; simpl. destruct (DiGraph.has_node _ (g s)) eqn:Hn; [auto|].
  unfold DiGraph.add_node. rewrite Hn. unfold DiGraph.has_edge.
  rewrite get_app. destruct (DiGraph.get u (g s)); [auto | discriminate].
Qed.

Lemma process_all_done_inv (calls : list CallLine) (s : pstate) :
  process_all calls init = Done tt s -> parser_inv s.
Proof.
  intros H. pose proof (process_all_inv calls init init_inv) as Hinv.
  rewrite H in Hinv. exact Hinv.
Qed.

(** C3. The graph returned for an input that parses has no edge twice,
    from text and from parsed lines alike; and a line whose edge is
    already in the graph goes through without an error and leaves the
    edges as they were. *)
Theorem no_parallel_edges :
  (forall cflow_str c_fname gr s,
      cflow2nx cflow_str c_fname = Done gr s -> NoDup (DiGraph.edges gr))
  /\ (forall calls s,
      process_all calls init = Done tt s -> NoDup (DiGraph.edges (g s)))
  /\ (forall c s pred_node,
      nestLevel c <> 0 ->
      stack s !! (nestLevel c - 1) = Some pred_node ->
      DiGraph.has_edge pred_node (cur_node_of c) (g s) = true ->
      exists s', process c s = Done tt s'
                 /\ DiGraph.edges (g s') = DiGraph.edges (g s)).
Proof.
  split; [|split].
  - intros cflow_str c_fname gr s H.
    destruct (cflow2nx_inv _ _ _ _ H) as (-> & Hwf & _).
    apply wf_edges_NoDup, Hwf.
  - intros calls s H. apply wf_edges_NoDup.
    destruct (process_all_done_inv _ _ H) as (Hwf & _). exact Hwf.
  - intros c s p Hz Hp He. exists (after_node c s).
    split; [|apply edges_after_node].
    rewrite process_eq. cbv zeta. apply Z.eqb_neq in Hz. rewrite Hz.
    unfold after_node at 1; simpl. rewrite lookup_insert_ne by lia.
    rewrite Hp. fold (after_node c s).
    change (if DiGraph.has_node (cur_node_of c) (g s) then g s
            else DiGraph.add_node (cur_node_of c) (nestLevel c) (sourceLine c) (g s))
      with (g (after_node c s)).
    rewrite (has_edge_after_node c s _ _ He). reflexivity.
Qed.

Lemma no_parallel_edges_witness :
  (exists gr s,
      cflow2nx (String.append "{   0} main()" (String Py.newline
               (String.append "{   1}     foo()" (String Py.newline
                              "{   1}     foo()")))) "t.c" = Done gr s
      /\ DiGraph.edges gr = [("main", "foo")]
      /\ NoDup (DiGraph.edges gr))
  /\ (exists s s',
      process_all [ {| nestLevel := 0; functionName := "main"; sourceLine := -1 |};
                    {| nestLevel := 1; functionName := "foo"; sourceLine := -1 |} ]
        init = Done tt s
      /\ NoDup (DiGraph.edges (g s))
      /\ process {| nestLevel := 1; functionName := "foo"; sourceLine := -1 |} s
         = Done tt s'
      /\ DiGraph.edges (g s') = DiGraph.edges (g s)).
Proof.
  destruct no_parallel_edges as (Htext & Hcalls & Hskip). split.
  - eexists _, _. split; [vm_compute; reflexivity|].
    split; [reflexivity|].
    eapply (Htext (String.append "{   0} main()" (String Py.newline
               (String.append "{   1}     foo()" (String Py.newline
                              "{   1}     foo()")))) "t.c").
    vm_compute. reflexivity.
  - pose (s := state_of (process_all
              [ {| nestLevel := 0; functionName := "main"; sourceLine := -1 |};
                {| nestLevel := 1; functionName := "foo"; sourceLine := -1 |} ]
              init)).
    assert (Hrun : process_all
              [ {| nestLevel := 0; functionName := "main"; sourceLine := -1 |};
                {| nestLevel := 1; functionName := "foo"; sourceLine := -1 |} ]
              init = Done tt s) by (vm_compute; reflexivity).
    destruct (Hskip {| nestLevel := 1; functionName := "foo"; sourceLine := -1 |}
                s "main" ltac:(simpl; lia)
                ltac:(vm_compute; reflexivity) ltac:(vm_compute; reflexivity))
      as (s' & Hs' & He).
    exists s, s'. split; [exact Hrun|]. split; [exact (Hcalls _ _ Hrun)|].
    split; [exact Hs' | exact He].
Defined.

(** ** Colour and shape by depth *)

Lemma mod5_cases (n : Z) :
  n mod 5 = 0 \/ n mod 5 = 1 \/ n mod 5 = 2 \/ n mod 5 = 3 \/ n mod 5 = 4.
Proof. pose proof (Z.mod_pos_bound n 5 ltac:(lia)). lia. Qed.

(** An index that [% 5] produced is in range for a list of five. *)
Lemma index_mod5 {A} (l : list A) (n : Z) :
  length l = 5%nat -> index l (n mod 5) = l !! Z.to_nat (n mod 5).
Proof.
  intros Hl. unfold index. rewrite Hl.
  pose proof (Z.mod_pos_bound n 5 ltac:(lia)) as Hb.
  destruct (0 <=? n mod 5) eqn:H0; [|apply Z.leb_gt in H0; lia].
  destruct (n mod 5 <? Z.of_nat 5) eqn:H5; [reflexivity|].
  apply Z.ltb_ge in H5. lia.
Qed.

(** Lines 239-244 never index out of range. *)
Lemma color_shape_by_depth (nest_level : Z) :
  exists color shape,
    choose_color_shape nest_level = Some (color, shape)
    /\ (nest_level = 0 -> shape = "box" /\ _COLORS !! 0%nat = Some color)
    /\ (nest_level <> 0 ->
        _COLORS !! Z.to_nat ((nest_level - 1) mod 5) = Some color
        /\ shapes !! Z.to_nat (nest_level mod 5) = Some shape).
Proof.
  unfold choose_color_shape.
  destruct (nest_level =? 0) eqn:Hz.
  - apply Z.eqb_eq in Hz. exists "#eecc80", "box".
    split; [reflexivity|]. split; [split; reflexivity | lia].
  - apply Z.eqb_neq in Hz.
    rewrite (index_mod5 _COLORS (nest_level - 1) eq_refl).
    rewrite (index_mod5 shapes nest_level eq_refl).
    destruct (_COLORS !! Z.to_nat ((nest_level - 1) mod 5)) as [color|] eqn:Hc.
    + destruct (shapes !! Z.to_nat (nest_level mod 5)) as [shape|] eqn:Hs.
      * exists color, shape. split; [reflexivity|].
        split; [lia | intros _; split; reflexivity].
      * exfalso. destruct (mod5_cases nest_level) as [H|[H|[H|[H|H]]]];
          rewrite H in Hs; discriminate.
    + exfalso. destruct (mod5_cases (nest_level - 1)) as [H|[H|[H|[H|H]]]];
        rewrite H in Hc; discriminate.
Qed.

(** C4. Colour and shape depend on the nesting level alone. At level 0
    the shape is box and the colour is the first of the palette; at any
    other level (so at every level above 0) the colour is the palette
    entry at (level - 1) mod 5 and the shape is the entry of
    box, ellipse, octagon, hexagon, diamond at level mod 5. *)
Theorem depth_styling (nest_level : Z) :
  exists color shape,
    (forall node src_line defined_somewhere for_latex multi_page,
        exists label,
          choose_node_format node nest_level src_line
            defined_somewhere for_latex multi_page
          = Some (label, color, shape))
    /\ (nest_level = 0 -> shape = "box" /\ _COLORS !! 0%nat = Some color)
    /\ (nest_level <> 0 ->
        _COLORS !! Z.to_nat ((nest_level - 1) mod 5) = Some color
        /\ ["box"; "ellipse"; "octagon"; "hexagon"; "diamond"]
             !! Z.to_nat (nest_level mod 5) = Some shape).
Proof.
  destruct (color_shape_by_depth nest_level) as (color & shape & Hcs & H0 & Hpos).
  exists color, shape. split; [|split; assumption].
  intros. unfold choose_node_format. rewrite Hcs. eexists. reflexivity.
Qed.

Lemma depth_styling_witness :
  (exists color shape,
      (forall node src_line defined_somewhere for_latex multi_page,
          exists label,
            choose_node_format node 0 src_line
              defined_somewhere for_latex multi_page
            = Some (label, color, shape))
      /\ shape = "box" /\ color = "#eecc80")
  /\ (exists color shape,
      (forall node src_line defined_somewhere for_latex multi_page,
          exists label,
            choose_node_format node 7 src_line
              defined_somewhere for_latex multi_page
            = Some (label, color, shape))
      /\ color = "#ccee80" /\ shape = "octagon").
Proof.
  split.
  - destruct (depth_styling 0) as (color & shape & Hall & H0 & _).
    destruct (H0 eq_refl) as [Hs Hc].
    exists color, shape. split; [exact Hall|]. split; [exact Hs|].
    injection Hc as <-. reflexivity.
  - destruct (depth_styling 7) as (color & shape & Hall & _ & Hpos).
    destruct (Hpos ltac:(lia)) as [Hc Hs].
    exists color, shape. split; [exact Hall|].
    injection Hc as <-. injection Hs as <-. split; reflexivity.
Defined.

(** ** The source line of a line *)

Lemma through_last_gt_none (s : string) :
  occurs ">" s = false -> Re.through_last_gt s = None.
Proof.
  induction s as [|c r IH]; simpl; [reflexivity|].
  intros H. apply orb_false_iff in H as [Hc Hr].
  destruct (Ascii.eqb c Py.newline); [reflexivity|].
  rewrite (IH Hr), Hc. reflexivity.
Qed.

Lemma through_last_gt_marker (d post : string) :
  occurs Py.newline d = false -> Re.through_last_gt post = None ->
  Re.through_last_gt (d +:+ String ">" post) = Some (d +:+ ">").
Proof.
  intros Hd Hpost. induction d as [|c r IH]; simpl.
  - rewrite Hpost. reflexivity.
  - simpl in Hd. apply orb_false_iff in Hd as [Hc Hr].
    rewrite Hc, (IH Hr). reflexivity.
Qed.

Lemma findall_skips_to_colon (pre rest : string) :
  occurs ":" pre = false ->
  Re.findall_colon_gt_from O (pre +:+ rest) = Re.findall_colon_gt_from O rest.
Proof.
  induction pre as [|c r IH]; simpl; [reflexivity|].
  intros H. apply orb_false_iff in H as [Hc Hr]. rewrite Hc. exact (IH Hr).
Qed.

Lemma drop_last_snoc (d : string) (c : ascii) :
  drop_last (d +:+ String c EmptyString) = d.
Proof.
  induction d as [|x r IH]; simpl; [reflexivity|].
  rewrite IH. destruct r; reflexivity.
Qed.

(** A line with neither a colon nor a closing angle has no source line. *)
Lemma src_line_no_absent (line : string) :
  occurs ":" line = false \/ occurs ">" line = false ->
  src_line_no line = inr (-1).
Proof.
  intros H. unfold src_line_no, Re.findall_colon_gt.
  destruct H as [H|H].
  - assert (Hall : forall k, Re.findall_colon_gt_from k line = []).
    { induction line as [|c r IH]; intros k; simpl; [reflexivity|].
      simpl in H. apply orb_false_iff in H as [Hc Hr].
      destruct k; [rewrite Hc|]; apply IH, Hr. }
    rewrite Hall. reflexivity.
  - assert (Hall : forall k, Re.findall_colon_gt_from k line = []).
    { induction line as [|c r IH]; intros k; simpl; [reflexivity|].
      simpl in H. apply orb_false_iff in H as [_ Hr].
      destruct k; [|apply IH, Hr].
      rewrite (through_last_gt_none r Hr).
      destruct (Ascii.eqb c ":"); apply IH, Hr. }
    rewrite Hall. reflexivity.
Qed.

(** What the code hands to [int]: the text between the first colon and
    the last closing angle of the line. *)
Lemma src_line_no_marker (pre d post : string) :
  occurs ":" pre = false -> occurs Py.newline d = false ->
  occurs ">" post = false ->
  src_line_no (pre +:+ String ":" (d +:+ String ">" post)) =
  match Py.int d with Some n => inr n | None => inl ValueError end.
Proof.
  intros Hpre Hd Hpost. unfold src_line_no, Re.findall_colon_gt.
  rewrite (findall_skips_to_colon _ _ Hpre). simpl.
  rewrite (through_last_gt_marker d post Hd (through_last_gt_none _ Hpost)).
  unfold slice_1_m1. rewrite drop_last_snoc. reflexivity.
Qed.

Example src_line_no_usual :
  src_line_no "{   0} main() <int main (void) at t.c:10>:" = inr 10
  /\ src_line_no "{   1}     printf()" = inr (-1)
  /\ src_line_no "    f() <int f (int) at test.c:1> (recursive: see 2)" = inr 1.
Proof. repeat split; reflexivity. Qed.

(** C5, at an input where the code departs from it. The line carries
    the marker [:10>], but the path before it holds a colon: the match
    of the pattern starts at the first colon, [int] receives
    [/src/t.c:10] and raises [ValueError], and so does the parse. *)
Theorem src_line_no_colon_in_path :
  Re.findall_colon_gt line_with_colon_in_path = [":/src/t.c:10>"]
  /\ src_line_no line_with_colon_in_path = inl ValueError
  /\ parse_line line_with_colon_in_path = inl ValueError
  /\ cflow2nx line_with_colon_in_path "t.c" = Raised ValueError init.
Proof. repeat split; vm_compute; reflexivity. Qed.

(** ** The nodes of the graph *)

Lemma has_node_after_process (c : CallLine) (s : pstate) (n : string) :
  stack_in_graph s ->
  DiGraph.has_node n (g (state_of (process c s))) =
  String.eqb n (cur_node_of c) || DiGraph.has_node n (g s).
Proof.
  intros Hst. rewrite process_eq. cbv zeta.
  pose proof (has_node_after_node c s n) as Hn.
  destruct (nestLevel c =? 0); [exact Hn|].
  destruct (stack (after_node c s) !! (nestLevel c - 1)) as [p|] eqn:Hp;
    [|exact Hn].
  destruct (DiGraph.has_edge _ _ _); [exact Hn|].
  cbn [state_of g]. rewrite has_node_add_edge, Hn.
  destruct (String.eqb_spec n (cur_node_of c)) as [->|Hne]; [reflexivity|].
  destruct (String.eqb_spec n p) as [->|Hnp]; [|reflexivity].
  simpl. unfold after_node in Hp; simpl in Hp.
  destruct (decide (nestLevel c = nestLevel c - 1)) as [Heq|Hd]; [lia|].
  rewrite lookup_insert_ne in Hp by exact Hd. symmetry. exact (Hst _ _ Hp).
Qed.

Lemma process_all_cons_done (c : CallLine) (calls : list CallLine) (s s' : pstate) :
  process_all (c :: calls) s = Done tt s' ->
  exists s1, process c s = Done tt s1 /\ process_all calls s1 = Done tt s'.
Proof.
  unfold process_all. rewrite for_each_cons.
  destruct (process c s) as [[] s1|e s1]; [|discriminate]. eauto.
Qed.

(** The nodes of a graph that was built without an error are exactly
    the identifiers of the lines. *)
Lemma nodes_are_identifiers (calls : list CallLine) (s s' : pstate) (n : string) :
  parser_inv s -> process_all calls s = Done tt s' ->
  (n ∈ DiGraph.nodes (g s') <->
   n ∈ DiGraph.nodes (g s) \/ exists c, c ∈ calls /\ n = cur_node_of c).
Proof.
  revert s. induction calls as [|c calls IH]; intros s Hinv Hrun.
  - injection Hrun as <-. split; [auto|].
    intros [H|(c & Hc & _)]; [exact H | inversion Hc].
  - apply process_all_cons_done in Hrun as (s1 & Hc & Hrest).
    pose proof (process_inv c s Hinv) as Hinv1.
    pose proof (has_node_after_process c s n (proj2 (proj2 Hinv))) as Hn.
    rewrite Hc in Hinv1, Hn. simpl in Hinv1, Hn.
    rewrite (IH s1 Hinv1 Hrest), <- !has_node_nodes, Hn, orb_true_iff.
    rewrite String.eqb_eq. split.
    + intros [[->|H]|(x & Hx & ->)]; [right|left|right]; eauto using list_elem_of_here, list_elem_of_further.
    + intros [H|(x & Hx & ->)]; [auto|].
      apply elem_of_cons in Hx as [->|Hx]; eauto.
Qed.

(** As many nodes as distinct identifiers. *)
Lemma node_count (calls : list CallLine) (s : pstate) :
  process_all calls init = Done tt s ->
  length (DiGraph.nodes (g s)) = length (remove_dups (map cur_node_of calls)).
Proof.
  intros Hrun. apply Permutation_length, NoDup_Permutation.
  - destruct (process_all_done_inv _ _ Hrun) as ((Hnd & _) & _). exact Hnd.
  - apply NoDup_remove_dups.
  - intros n. rewrite (nodes_are_identifiers calls init s n init_inv Hrun).
    rewrite elem_of_remove_dups.
    change (map cur_node_of calls) with (cur_node_of <$> calls).
    rewrite list_elem_of_fmap. split.
    + intros [H|(c & Hc & ->)]; [inversion H | eauto].
    + intros (c & -> & Hc). right. eauto.
Qed.

(** ** Two functions, one node *)

(** C6, at an input where the code departs from it. The call tree
    names three functions, main, graph and graph_; graph is renamed to
    graph_, the identifier of the third, and the graph has two nodes. *)
Theorem renamed_name_collides :
  Forall2 (fun l c => parse_line l = inr c)
    [ "{   0} main() <int main (void) at t.c:9>:";
      "{   1}     graph() <void graph (void) at t.c:1>";
      "{   1}     graph_() <void graph_ (void) at t.c:5>" ]
    example_graph_names
  /\ distinct_names example_graph_names = ["main"; "graph"; "graph_"]
  /\ exists s,
      cflow2nx_lines
        [ "{   0} main() <int main (void) at t.c:9>:";
          "{   1}     graph() <void graph (void) at t.c:1>";
          "{   1}     graph_() <void graph_ (void) at t.c:5>" ] = Done (g s) s
      /\ process_all example_graph_names init = Done tt s
      /\ DiGraph.nodes (g s) = ["main"; "graph_"]
      /\ DiGraph.edges (g s) = [("main", "graph_")]
      /\ length (DiGraph.nodes (g s)) <> length (distinct_names example_graph_names).
Proof.
  split; [repeat (constructor; [vm_compute; reflexivity|]); constructor|].
  split; [vm_compute; reflexivity|].
  exists (state_of (process_all example_graph_names init)).
  split; [vm_compute; reflexivity|].
  split; [vm_compute; reflexivity|].
  split; [vm_compute; reflexivity|].
  split; [vm_compute; reflexivity|].
  vm_compute. discriminate.
Qed.

(** ** Defined in another source file *)

Lemma cflow2nx_attributed (cflow_str c_fname : string) (gr : DiGraph.t) (s : pstate) :
  cflow2nx cflow_str c_fname = Done gr s -> attributed gr.
Proof.
  intros H. destruct (cflow2nx_inv _ _ _ _ H) as (-> & _ & Hat & _). exact Hat.
Qed.

Lemma defined_in_attributed (node : string) (d : bool) (gr : DiGraph.t) :
  attributed gr ->
  exists b, defined_in node d gr = Done b gr
    /\ (b = true <->
        d = true \/ exists l, DiGraph.has_node node gr = true
                              /\ DiGraph.node_src_line node gr = inr l /\ l <> -1).
Proof.
  intros Hat. unfold defined_in, bind, reads, try_reads, ret.
  destruct (DiGraph.has_node node gr) eqn:Hn.
  - destruct (attributed_src_line node gr Hat Hn) as [l Hl]. rewrite Hl.
    destruct (l =? -1) eqn:Hm; simpl.
    + apply Z.eqb_eq in Hm. exists d. split; [reflexivity|]. split; [auto|].
      intros [H|(l' & _ & [= <-] & Hne)]; [exact H | contradiction].
    + apply Z.eqb_neq in Hm. exists true. split; [reflexivity|].
      split; [|reflexivity]. intros _. right. exists l. auto.
  - exists d. split; [reflexivity|]. split; [auto|].
    intros [H|(l & Hf & _)]; [exact H | discriminate].
Qed.

Lemma defined_loop_attributed (node : string) (other_graphs : list DiGraph.t) :
  Forall attributed other_graphs ->
  forall d, exists b,
    defined_loop node d other_graphs = Done b other_graphs
    /\ (b = true <->
        d = true \/ exists gr l, gr ∈ other_graphs
                                 /\ DiGraph.has_node node gr = true
                                 /\ DiGraph.node_src_line node gr = inr l
                                 /\ l <> -1).
Proof.
  induction 1 as [|gr rest Hgr Hrest IH]; intros d; simpl.
  - exists d. split; [reflexivity|]. split; [auto|].
    intros [H|(gr & l & Hin & _)]; [exact H | inversion Hin].
  - destruct (defined_in_attributed node d gr Hgr) as (b1 & -> & Hb1).
    destruct (IH b1) as (b & -> & Hb). exists b. split; [reflexivity|].
    rewrite Hb, Hb1. split.
    + intros [[H|(l & Hl)]|(gr' & l & Hin & Hl)]; [left; exact H | right | right].
      * exists gr, l. split; [left | exact Hl].
      * exists gr', l. split; [right; exact Hin | exact Hl].
    + intros [H|(gr' & l & Hin & Hl)]; [auto|].
      apply elem_of_cons in Hin as [->|Hin]; [left; right; eauto|].
      right. eauto.
Qed.

(** C7. On graphs whose nodes carry a source line, as the graphs of
    [cflow2nx] do, the query returns true exactly when some graph of the
    list has the node with a source line other than -1; it leaves the
    list of graphs as it was; and it returns false on the empty list. *)
Theorem defined_elsewhere_iff (node : string) (other_graphs : list DiGraph.t) :
  Forall attributed other_graphs ->
  (exists b,
      node_defined_in_other_src node other_graphs = Done b other_graphs
      /\ (b = true <->
          exists gr l, gr ∈ other_graphs
                       /\ DiGraph.has_node node gr = true
                       /\ DiGraph.node_src_line node gr = inr l
                       /\ l <> -1))
  /\ node_defined_in_other_src node [] = Done false [].
Proof.
  intros Hat. split; [|reflexivity].
  destruct (defined_loop_attributed node other_graphs Hat false) as (b & Hb & Hiff).
  exists b. split; [exact Hb|]. rewrite Hiff. split.
  - intros [H|H]; [discriminate | exact H].
  - auto.
Qed.

Lemma defined_elsewhere_iff_witness :
  let graphB : DiGraph.t :=
    [("helper", {| DiGraph.attr := {| DiGraph.nest_level := Some 1;
                                      DiGraph.src_line := Some 42 |};
                   DiGraph.succ := [] |})] in
  node_defined_in_other_src "helper" [graphB] = Done true [graphB]
  /\ node_defined_in_other_src "helper" [] = Done false [].
Proof.
  cbv zeta.
  destruct (defined_elsewhere_iff "helper"
    [[("helper", {| DiGraph.attr := {| DiGraph.nest_level := Some 1;
                                       DiGraph.src_line := Some 42 |};
                    DiGraph.succ := [] |})]])
    as ((b & Hb & Hiff) & Hnil).
  - repeat constructor. simpl. eauto.
  - split; [|exact Hnil].
    assert (Ht : b = true).
    { apply Hiff. eexists _, 42. split; [left|].
      split; [reflexivity|]. split; [reflexivity | lia]. }
    subst b. exact Hb.
Defined.

(** ** Reserved words *)

Lemma lower_app (a b : string) : Py.lower (a +:+ b) = Py.lower a +:+ Py.lower b.
Proof. induction a as [|c r IH]; simpl; [reflexivity | rewrite IH; reflexivity]. Qed.

Lemma reserved_cases (w : string) :
  Py.mem w _DOT_RESERVED = true ->
  w = "graph" \/ w = "strict" \/ w = "digraph" \/ w = "subgraph"
  \/ w = "node" \/ w = "edge".
Proof.
  intros H. apply mem_In in H. unfold _DOT_RESERVED in H.
  repeat (apply elem_of_cons in H as [H|H]; [tauto|]). inversion H.
Qed.

Lemma cur_node_recorded (c : CallLine) (s : pstate) :
  DiGraph.has_node (cur_node_of c) (g (state_of (process c s))) = true.
Proof.
  rewrite process_eq. cbv zeta.
  assert (Hn : DiGraph.has_node (cur_node_of c) (g (after_node c s)) = true)
    by (rewrite has_node_after_node, String.eqb_refl; reflexivity).
  destruct (nestLevel c =? 0); [exact Hn|].
  destruct (stack (after_node c s) !! (nestLevel c - 1)); [|exact Hn].
  destruct (DiGraph.has_edge _ _ _); [exact Hn|].
  cbn [state_of g]. rewrite has_node_add_edge, String.eqb_refl. reflexivity.
Qed.

(** C8. A name whose lower-case form is a reserved word becomes the
    name followed by an underscore, which is no reserved word in any
    case; any other name is kept; and the identifier so obtained is the
    node the parser records for the line. *)
Theorem reserved_words_renamed (word : string) :
  (Py.mem (Py.lower word) _DOT_RESERVED = true ->
   rename_if_reserved_by_dot word = word +:+ "_"
   /\ Py.mem (Py.lower (rename_if_reserved_by_dot word)) _DOT_RESERVED = false)
  /\ (Py.mem (Py.lower word) _DOT_RESERVED = false ->
      rename_if_reserved_by_dot word = word)
  /\ (forall nest_level src_line s,
      DiGraph.has_node (rename_if_reserved_by_dot word)
        (g (state_of (process {| nestLevel := nest_level; functionName := word;
                                 sourceLine := src_line |} s))) = true).
Proof.
  split; [|split].
  - intros H. unfold rename_if_reserved_by_dot. rewrite H.
    split; [reflexivity|]. rewrite lower_app.
    destruct (reserved_cases _ H) as [-> | [-> | [-> | [-> | [-> | ->]]]]];
      reflexivity.
  - intros H. unfold rename_if_reserved_by_dot. rewrite H. reflexivity.
  - intros nl sl s.
    exact (cur_node_recorded {| nestLevel := nl; functionName := word;
                                sourceLine := sl |} s).
Qed.

Lemma reserved_words_renamed_witness :
  (rename_if_reserved_by_dot "GrApH" = "GrApH_"
   /\ Py.mem (Py.lower (rename_if_reserved_by_dot "GrApH")) _DOT_RESERVED = false)
  /\ rename_if_reserved_by_dot "grapheme" = "grapheme".
Proof.
  split.
  - apply (proj1 (reserved_words_renamed "GrApH")). reflexivity.
  - apply (proj1 (proj2 (reserved_words_renamed "grapheme"))). reflexivity.
Defined.

(** ** The caller is the last name seen one level up *)

Lemma process_all_app_done (l1 l2 : list CallLine) (s s' : pstate) :
  process_all (l1 ++ l2) s = Done tt s' ->
  exists s1, process_all l1 s = Done tt s1 /\ process_all l2 s1 = Done tt s'.
Proof.
  unfold process_all. rewrite for_each_app.
  destruct (for_each l1 process s) as [[] s1|e s1]; [|discriminate]. eauto.
Qed.

Lemma process_with_ancestor (c : CallLine) (s : pstate) (p : string) :
  nestLevel c <> 0 -> stack s !! (nestLevel c - 1) = Some p ->
  exists s', process c s = Done tt s'
             /\ DiGraph.has_edge p (cur_node_of c) (g s') = true.
Proof.
  intros Hz Hp. rewrite process_eq. cbv zeta.
  apply Z.eqb_neq in Hz. rewrite Hz.
  assert (Hp1 : stack (after_node c s) !! (nestLevel c - 1) = Some p).
  { unfold after_node; simpl. rewrite lookup_insert_ne by lia. exact Hp. }
  rewrite Hp1.
  destruct (DiGraph.has_edge p (cur_node_of c) (g (after_node c s))) eqn:He.
  - eexists. split; [reflexivity | exact He].
  - eexists. split; [reflexivity | apply has_edge_add_edge].
Qed.

(** C9. An entry of the stack, once written, is never removed; and the
    caller of a line at depth d > 0 is the name of the last earlier line
    at depth d-1, whatever lines lie between the two: the line goes
    through without an error and the edge from that name is in the
    graph. *)
Theorem stale_ancestor_is_caller :
  (forall calls s0 k,
      is_Some (stack s0 !! k) ->
      is_Some (stack (state_of (process_all calls s0)) !! k))
  /\ (forall pre c' mid c s,
      process_all (pre ++ c' :: mid) init = Done tt s ->
      nestLevel c > 0 ->
      nestLevel c' = nestLevel c - 1 ->
      (forall x, x ∈ mid -> nestLevel x <> nestLevel c - 1) ->
      stack s !! (nestLevel c - 1) = Some (cur_node_of c')
      /\ exists s',
          process c s = Done tt s'
          /\ process_all (pre ++ c' :: mid ++ [c]) init = Done tt s'
          /\ DiGraph.has_edge (cur_node_of c') (cur_node_of c) (g s') = true).
Proof.
  split.
  - intros calls s0 k. unfold process_all.
    apply (for_each_invariant process (fun s => is_Some (stack s !! k))).
    intros x s H. rewrite stack_after_process.
    destruct (decide (nestLevel x = k)) as [->|Hne].
    + rewrite lookup_insert_eq. eauto.
    + rewrite lookup_insert_ne by exact Hne. exact H.
  - intros pre c' mid c s Hrun Hd Hc' Hmid.
    apply process_all_app_done in Hrun as (sa & Hpre & Hrun).
    apply process_all_cons_done in Hrun as (sb & Hcb & Hrest).
    assert (Hstack : stack s !! (nestLevel c - 1) = Some (cur_node_of c')).
    { pose proof (stack_untouched _ mid sb Hmid) as H.
      rewrite Hrest in H. simpl in H. rewrite H.
      pose proof (stack_after_process c' sa) as Hb.
      rewrite Hcb in Hb. simpl in Hb.
      rewrite Hb, <- Hc'. apply lookup_insert_eq. }
    split; [exact Hstack|].
    destruct (process_with_ancestor c s _ ltac:(lia) Hstack) as (s' & Hs' & He).
    exists s'. split; [exact Hs'|]. split; [|exact He].
    unfold process_all in *.
    rewrite for_each_app, Hpre, for_each_cons, Hcb, for_each_app, Hrest.
    rewrite for_each_cons, Hs'. reflexivity.
Qed.

Lemma stale_ancestor_is_caller_witness :
  exists s',
    process_all
      [ {| nestLevel := 0; functionName := "main"; sourceLine := 1 |};
        {| nestLevel := 1; functionName := "a"; sourceLine := 2 |};
        {| nestLevel := 2; functionName := "b"; sourceLine := 3 |};
        {| nestLevel := 0; functionName := "other"; sourceLine := 4 |};
        {| nestLevel := 2; functionName := "c"; sourceLine := 5 |} ] init
    = Done tt s'
    /\ DiGraph.has_edge "a" "c" (g s') = true
    /\ is_Some (stack s' !! 1).
Proof.
  destruct stale_ancestor_is_caller as [Hkeep Hcaller].
  pose (s := state_of (process_all
      [ {| nestLevel := 0; functionName := "main"; sourceLine := 1 |};
        {| nestLevel := 1; functionName := "a"; sourceLine := 2 |};
        {| nestLevel := 2; functionName := "b"; sourceLine := 3 |};
        {| nestLevel := 0; functionName := "other"; sourceLine := 4 |} ] init)).
  destruct (Hcaller
      [ {| nestLevel := 0; functionName := "main"; sourceLine := 1 |} ]
      {| nestLevel := 1; functionName := "a"; sourceLine := 2 |}
      [ {| nestLevel := 2; functionName := "b"; sourceLine := 3 |};
        {| nestLevel := 0; functionName := "other"; sourceLine := 4 |} ]
      {| nestLevel := 2; functionName := "c"; sourceLine := 5 |}
      s) as (Hst & s' & Hc & Hall & He).
  - vm_compute. reflexivity.
  - simpl. lia.
  - reflexivity.
  - intros x Hx. simpl.
    apply elem_of_cons in Hx as [->|Hx]; [simpl; lia|].
    apply list_elem_of_singleton in Hx as ->. simpl. lia.
  - exists s'. split; [exact Hall|]. split; [exact He|].
    pose proof (Hkeep [ {| nestLevel := 2; functionName := "c"; sourceLine := 5 |} ]
                  s 1 ltac:(eexists; exact Hst)) as Hk.
    unfold process_all in Hk. rewrite for_each_cons, Hc in Hk. exact Hk.
Defined.

(** ** Labels in multi-page mode *)

Lemma sub_underscore_length (s : string) :
  (String.length s <= String.length (Re.sub_underscore s))%nat
  /\ (occurs "_" s = true ->
      (String.length s < String.length (Re.sub_underscore s))%nat).
Proof.
  induction s as [|c r [IHle IHlt]]; simpl; [split; [lia | discriminate]|].
  destruct (Ascii.eqb c "_"); simpl.
  - change ("" +:+ Re.sub_underscore r) with (Re.sub_underscore r).
    split; [lia | intros _; lia].
  - split; [lia | intros H; specialize (IHlt H); lia].
Qed.

(** Escaping changes a name that has an underscore. *)
Lemma sub_underscore_changes (s : string) :
  occurs "_" s = true -> Re.sub_underscore s <> s.
Proof.
  intros H Heq. destruct (sub_underscore_length s) as [_ Hlt].
  specialize (Hlt H). rewrite Heq in Hlt. lia.
Qed.

(** C10. In multi-page mode the braces of [descitem] and the braces
    after [descref] hold the node name as it is, whether or not LaTeX
    output is asked for; the text in the brackets of [descref] and the
    text after the [descitem] anchor are the name with underscores
    escaped when LaTeX output is asked for. *)
Theorem anchor_is_raw_name (node : string) (nest_level src_line : Z)
    (defined_somewhere for_latex : bool) :
  exists label color shape,
    choose_node_format node nest_level src_line defined_somewhere for_latex true
    = Some (label, color, shape)
    /\ (src_line <> -1 ->
        label = "\\descitem{" +:+ node +:+ "}\n"
                +:+ _escape_underscores node for_latex
                +:+ "\n" +:+ Py.str src_line)
    /\ (src_line = -1 -> defined_somewhere = true ->
        label = "\\descref[" +:+ _escape_underscores node for_latex
                +:+ "]{" +:+ node +:+ "}")
    /\ (for_latex = true ->
        _escape_underscores node for_latex = Re.sub_underscore node
        /\ (occurs "_" node = true ->
            _escape_underscores node for_latex <> node)).
Proof.
  destruct (color_shape_by_depth nest_level) as (color & shape & Hcs & _).
  unfold choose_node_format. rewrite Hcs.
  eexists _, color, shape. split; [reflexivity|]. unfold choose_label.
  split; [|split].
  - intros Hs. apply Z.eqb_neq in Hs. rewrite Hs. simpl.
    destruct for_latex; reflexivity.
  - intros -> ->. reflexivity.
  - intros ->. split; [reflexivity|]. apply sub_underscore_changes.
Qed.

Lemma anchor_is_raw_name_witness :
  (exists color shape,
      choose_node_format "my_f" 3 12 false true true
      = Some ("\\descitem{my_f}\nmy\\_f\n12", color, shape))
  /\ (exists color shape,
      choose_node_format "my_f" 3 (-1) true true true
      = Some ("\\descref[my\\_f]{my_f}", color, shape)).
Proof.
  split.
  - destruct (anchor_is_raw_name "my_f" 3 12 false true)
      as (label & color & shape & Hl & Hitem & _).
    exists color, shape. rewrite Hl, (Hitem ltac:(lia)). reflexivity.
  - destruct (anchor_is_raw_name "my_f" 3 (-1) true true)
      as (label & color & shape & Hl & _ & Href & _).
    exists color, shape. rewrite Hl, (Href eq_refl eq_refl). reflexivity.
Defined.

(** ** Pruning *)

Lemma attributed_remove_node (n : string) (gr : DiGraph.t) :
  attributed gr -> attributed (DiGraph.remove_node n gr).
Proof.
  unfold attributed, DiGraph.remove_node. intros H.
  change (map ?f ?l) with (f <$> l).
  apply Forall_fmap, Forall_forall. intros [m d] Hin.
  apply list_elem_of_filter in Hin as [_ Hin].
  rewrite Forall_forall in H. exact (H _ Hin).
Qed.

(** Pruning keeps the source lines of the nodes that stay, so the graphs
    handed to [node_defined_in_other_src] still carry them. *)
Lemma attributed_rm_excluded (rm_nodes : list string) (gr : DiGraph.t) :
  attributed gr -> attributed (rm_excluded rm_nodes gr).
Proof.
  unfold rm_excluded. revert gr.
  induction rm_nodes as [|n rest IH]; intros gr H; simpl; [exact H|].
  apply IH. destruct (DiGraph.has_node n gr);
    [apply attributed_remove_node, H | exact H].
Qed.

(** The spec's third example: the graph of the first example without bar. *)
Example example1_pruned :
  let gr := rm_excluded ["bar"] (g (state_of (process_all example1 init))) in
  DiGraph.nodes gr = ["main"; "foo"] /\ DiGraph.edges gr = [("main", "foo")].
Proof. split; vm_compute; reflexivity. Qed.

(** ** Node count when the renaming does not collide *)

Lemma remove_dups_fmap_inj (f : string -> string) (l : list string) :
  (forall a b, a ∈ l -> b ∈ l -> f a = f b -> a = b) ->
  remove_dups (f <$> l) = f <$> remove_dups l.
Proof.
  induction l as [|x l IH]; intros Hinj; [reflexivity|].
  assert (Hl : forall a b, a ∈ l -> b ∈ l -> f a = f b -> a = b)
    by (intros a b Ha Hb; apply Hinj; right; assumption).
  cbn [fmap list_fmap remove_dups].
  destruct (decide_rel elem_of x l) as [Hx|Hx];
    destruct (decide_rel elem_of (f x) (f <$> l)) as [Hfx|Hfx].
  - apply IH, Hl.
  - exfalso. apply Hfx. apply list_elem_of_fmap. eauto.
  - exfalso. apply list_elem_of_fmap in Hfx as (y & Hxy & Hy).
    apply Hx. rewrite (Hinj x y); [exact Hy | left | right; exact Hy | exact Hxy].
  - cbn [fmap list_fmap]. f_equal. apply IH, Hl.
Qed.

(** When no two names of the input get the same identifier, the graph
    has as many nodes as the input has distinct names. *)
Lemma node_count_without_collision (calls : list CallLine) (s : pstate) :
  process_all calls init = Done tt s ->
  (forall a b, a ∈ map functionName calls -> b ∈ map functionName calls ->
               rename_if_reserved_by_dot a = rename_if_reserved_by_dot b -> a = b) ->
  length (DiGraph.nodes (g s)) = length (distinct_names calls).
Proof.
  intros Hrun Hinj. rewrite (node_count calls s Hrun). unfold distinct_names.
  replace (map cur_node_of calls)
    with (rename_if_reserved_by_dot <$> map functionName calls).
  - rewrite (remove_dups_fmap_inj _ _ Hinj). apply length_fmap.
  - change (map functionName calls) with (functionName <$> calls).
    rewrite <- list_fmap_compose. reflexivity.
Qed.

(** * Further properties of the parser *)

(** ** Edges join nodes, nodes carry both attributes *)

Section MoreGraphFacts.
Import DiGraph.

Lemma has_edge_elem (u v : string) (gr : t) :
  has_edge u v gr = true -> (u, v) ∈ edges gr.
Proof.
  unfold has_edge. destruct (get u gr) as [d|] eqn:Hg; [|discriminate].
  intros Hm. apply elem_of_edges. exists d.
  split; [apply get_elem, Hg | apply mem_In, Hm].
Qed.

Lemma elem_of_edges_cons (a b m : string) (d : node_data) (gr : t) :
  (a, b) ∈ edges ((m, d) :: gr) <-> (a = m /\ b ∈ succ d) \/ (a, b) ∈ edges gr.
Proof.
  unfold edges; simpl. rewrite elem_of_app.
  change (map (pair m) (succ d)) with (pair m <$> succ d).
  rewrite list_elem_of_fmap. split.
  - intros [(w & [= -> ->] & Hw)|H]; [left; auto | right; exact H].
  - intros [[-> Hb]|H]; [left; eauto | right; exact H].
Qed.

(** What [add_edge] does to the successors of a node that is there. *)
Lemma elem_of_edges_append (u v a b : string) (gr : t) :
  has_node u gr = true ->
  (a, b) ∈ edges (update u (fun d => {| attr := attr d;
                                        succ := if Py.mem v (succ d) then succ d
                                                else (succ d ++ [v])%list |}) gr)
  <-> (a, b) = (u, v) \/ (a, b) ∈ edges gr.
Proof.
  induction gr as [|[m d] gr IH]; [discriminate|].
  intros Hu. cbn [update].
  destruct (String.eqb_spec u m) as [->|Hne].
  - rewrite !elem_of_edges_cons. cbn [succ].
    destruct (Py.mem v (succ d)) eqn:Hm.
    + apply mem_In in Hm. split; [auto|].
      intros [[= -> ->]|H]; [left; auto | exact H].
    + rewrite elem_of_app, list_elem_of_singleton. split.
      * intros [[-> [H| ->]]|H]; auto.
      * intros [[= -> ->]|[[-> H]|H]]; auto.
  - rewrite !elem_of_edges_cons.
    assert (Hu' : has_node u gr = true).
    { unfold has_node in *. simpl in Hu.
      destruct (String.eqb_spec u m); [contradiction | exact Hu]. }
    rewrite (IH Hu'). tauto.
Qed.

Lemma elem_of_edges_add_edge (u v a b : string) (gr : t) :
  (a, b) ∈ edges (add_edge u v gr) <-> (a, b) = (u, v) \/ (a, b) ∈ edges gr.
Proof.
  unfold add_edge. rewrite elem_of_edges_append.
  - rewrite !edges_ensure_node. reflexivity.
  - rewrite !has_node_ensure_node, String.eqb_refl.
    destruct (String.eqb u v); reflexivity.
Qed.

Lemma nodes_add_edge_present (u v : string) (gr : t) :
  has_node u gr = true -> has_node v gr = true ->
  nodes (add_edge u v gr) = nodes gr.
Proof.
  intros Hu Hv. unfold add_edge.
  rewrite (ensure_node_present u gr Hu), (ensure_node_present v gr Hv).
  apply nodes_update.
Qed.

Lemma both_attrs_update (n : string) (f : node_data -> node_data) (gr : t) :
  (forall d, attr (f d) = attr d) ->
  has_both_attrs gr -> has_both_attrs (update n f gr).
Proof.
  intros Hf H. induction H as [|[m d] gr Hd H IH]; simpl; [constructor|].
  destruct (String.eqb n m); constructor; simpl in *; auto.
  rewrite Hf. exact Hd.
Qed.

Lemma both_attrs_add_edge (u v : string) (gr : t) :
  has_node u gr = true -> has_node v gr = true ->
  has_both_attrs gr -> has_both_attrs (add_edge u v gr).
Proof.
  intros Hu Hv H. unfold add_edge.
  rewrite (ensure_node_present u gr Hu), (ensure_node_present v gr Hv).
  apply both_attrs_update; [reflexivity | exact H].
Qed.

Lemma both_attrs_get (n : string) (gr : t) :
  has_both_attrs gr -> has_node n gr = true ->
  exists nest src, node_nest_level n gr = inr nest /\ node_src_line n gr = inr src.
Proof.
  unfold has_node, node_nest_level, node_src_line. intros H Hn.
  destruct (get n gr) as [d|] eqn:Hg; [|discriminate].
  apply get_elem in Hg. unfold has_both_attrs in H.
  rewrite Forall_forall in H. destruct (H _ Hg) as [[a Ha] [b Hb]].
  simpl in Ha, Hb. rewrite Ha, Hb. eauto.
Qed.
End MoreGraphFacts.

Lemma both_attrs_after_node (c : CallLine) (s : pstate) :
  has_both_attrs (g s) -> has_both_attrs (g (after_node c s)).
Proof.
  intros H. unfold after_node; simpl.
  destruct (DiGraph.has_node (cur_node_of c) (g s)) eqn:Hn; [exact H|].
  unfold DiGraph.add_node. rewrite Hn.
  apply Forall_app. split; [exact H|]. repeat constructor; simpl; eauto.
Qed.

Lemma nodes_after_node (c : CallLine) (s : pstate) :
  DiGraph.nodes (g (after_node c s)) =
  if DiGraph.has_node (cur_node_of c) (g s) then DiGraph.nodes (g s)
  else (DiGraph.nodes (g s) ++ [cur_node_of c])%list.
Proof.
  unfold after_node; simpl.
  destruct (DiGraph.has_node (cur_node_of c) (g s)) eqn:Hn; [reflexivity|].
  unfold DiGraph.add_node. rewrite Hn. unfold DiGraph.nodes.
  rewrite map_app. reflexivity.
Qed.

(** What one line does to the graph, for a state the parser can be in. *)
Lemma process_done_graph (c : CallLine) (s s' : pstate) :
  stack_in_graph s -> process c s = Done tt s' ->
  DiGraph.nodes (g s') = DiGraph.nodes (g (after_node c s))
  /\ (nestLevel c = 0 /\ s' = after_node c s
      \/ exists p, nestLevel c <> 0 /\ stack s !! (nestLevel c - 1) = Some p
                   /\ DiGraph.has_node p (g (after_node c s)) = true
                   /\ (s' = after_node c s
                       /\ DiGraph.has_edge p (cur_node_of c) (g (after_node c s)) = true
                       \/ g s' = DiGraph.add_edge p (cur_node_of c) (g (after_node c s)))).
Proof.
  intros Hst. rewrite process_eq. cbv zeta.
  destruct (nestLevel c =? 0) eqn:Hz.
  - intros [= <-]. apply Z.eqb_eq in Hz. split; [reflexivity | left; auto].
  - apply Z.eqb_neq in Hz.
    destruct (stack (after_node c s) !! (nestLevel c - 1)) as [p|] eqn:Hp;
      [|discriminate].
    assert (Hp0 : stack s !! (nestLevel c - 1) = Some p).
    { unfold after_node in Hp; simpl in Hp.
      rewrite lookup_insert_ne in Hp by lia. exact Hp. }
    assert (Hpn : DiGraph.has_node p (g (after_node c s)) = true).
    { rewrite has_node_after_node, (Hst _ _ Hp0). apply orb_true_r. }
    assert (Hcn : DiGraph.has_node (cur_node_of c) (g (after_node c s)) = true).
    { rewrite has_node_after_node, String.eqb_refl. reflexivity. }
    destruct (DiGraph.has_edge p (cur_node_of c) (g (after_node c s))) eqn:He.
    + intros [= <-]. split; [reflexivity|]. right. exists p. auto 10.
    + intros [= <-]. cbn [g]. split.
      * apply nodes_add_edge_present; assumption.
      * right. exists p. auto 10.
Qed.

Lemma process_keeps_more (c : CallLine) (s : pstate) :
  parser_inv s /\ has_both_attrs (g s) /\ edges_closed (g s) ->
  let s' := state_of (process c s) in
  parser_inv s' /\ has_both_attrs (g s') /\ edges_closed (g s').
Proof.
  intros (Hinv & Hat & Hcl). cbv zeta.
  split; [apply process_inv, Hinv|].
  pose proof (both_attrs_after_node c s Hat) as Hat1.
  assert (Hcl1 : edges_closed (g (after_node c s))).
  { intros u v Huv. rewrite edges_after_node in Huv.
    apply has_node_nodes. rewrite has_node_after_node.
    apply Hcl, has_node_nodes in Huv. rewrite Huv. apply orb_true_r. }
  destruct (process c s) as [[] s'|e s'] eqn:Hrun; simpl.
  - destruct (process_done_graph c s s' (proj2 (proj2 Hinv)) Hrun)
      as (Hnodes & [[_ ->]|(p & _ & _ & Hpn & [[-> _]|Hg])]); auto.
    rewrite Hg.
    assert (Hcn : DiGraph.has_node (cur_node_of c) (g (after_node c s)) = true)
      by (rewrite has_node_after_node, String.eqb_refl; reflexivity).
    split; [apply both_attrs_add_edge; assumption|].
    intros u v Huv. rewrite nodes_add_edge_present by assumption.
    apply elem_of_edges_add_edge in Huv as [[= -> ->]|Huv];
      [apply has_node_nodes, Hcn | exact (Hcl1 _ _ Huv)].
  - destruct (process_raised _ _ _ _ Hrun) as (_ & -> & _). auto.
Qed.

Lemma loop_body_keeps_more (line : string) (s : pstate) :
  parser_inv s /\ has_both_attrs (g s) /\ edges_closed (g s) ->
  let s' := state_of (loop_body line s) in
  parser_inv s' /\ has_both_attrs (g s') /\ edges_closed (g s').
Proof.
  intros H. cbv zeta.
  destruct (loop_body_cases line s) as [-> | [-> | (c & _ & ->)]];
    [exact H | exact H | apply process_keeps_more, H].
Qed.

Lemma init_more : parser_inv init /\ has_both_attrs (g init) /\ edges_closed (g init).
Proof.
  split; [apply init_inv|]. split; [constructor|].
  intros u v H. inversion H.
Qed.

(** The graph [cflow2nx] returns names each node once, gives every node
    both of its attributes, and has no edge to or from a name that is
    not one of its nodes. *)
Theorem cflow2nx_graph_sound (cflow_str c_fname : string) (gr : DiGraph.t)
    (s : pstate) :
  cflow2nx cflow_str c_fname = Done gr s ->
  NoDup (DiGraph.nodes gr)
  /\ (forall n, n ∈ DiGraph.nodes gr ->
        exists nest src, DiGraph.node_nest_level n gr = inr nest
                         /\ DiGraph.node_src_line n gr = inr src)
  /\ (forall u v, (u, v) ∈ DiGraph.edges gr ->
        u ∈ DiGraph.nodes gr /\ v ∈ DiGraph.nodes gr).
Proof.
  unfold cflow2nx, cflow2nx_lines, bind, reads. intros H.
  pose proof (for_each_invariant loop_body _ loop_body_keeps_more
                (lines_of cflow_str) init init_more) as Hinv.
  destruct (for_each (lines_of cflow_str) loop_body init) as [[] s'|e s'];
    [|discriminate].
  injection H as <- <-. simpl in Hinv.
  destruct Hinv as (((Hnd & _) & _) & Hat & Hcl).
  split; [exact Hnd|]. split.
  - intros n Hn. apply both_attrs_get; [exact Hat | apply has_node_nodes, Hn].
  - intros u v Huv. split; [exact (edge_source_is_node _ _ _ Huv) | exact (Hcl _ _ Huv)].
Qed.

Lemma cflow2nx_graph_sound_witness :
  exists gr s,
    cflow2nx (String.append "{   0} main() <int main (void) at t.c:10>:"
               (String Py.newline "{   1}     foo()")) "t.c" = Done gr s
    /\ NoDup (DiGraph.nodes gr)
    /\ (forall u v, (u, v) ∈ DiGraph.edges gr ->
          u ∈ DiGraph.nodes gr /\ v ∈ DiGraph.nodes gr).
Proof.
  eexists _, _. split; [vm_compute; reflexivity|].
  edestruct (cflow2nx_graph_sound
               (String.append "{   0} main() <int main (void) at t.c:10>:"
                  (String Py.newline "{   1}     foo()")) "t.c")
    as (Hnd & _ & Hcl); [vm_compute; reflexivity|].
  split; [exact Hnd | exact Hcl].
Defined.

(** ** The stack holds the last name seen at each depth *)

Lemma last_at_snoc (d : Z) (l : list CallLine) (c : CallLine) :
  last_at d (l ++ [c]) =
  if nestLevel c =? d then Some (cur_node_of c) else last_at d l.
Proof. unfold last_at. rewrite fold_left_app. reflexivity. Qed.

Lemma last_at_Some (d : Z) (l : list CallLine) (u : string) :
  last_at d l = Some u ->
  exists x, x ∈ l /\ nestLevel x = d /\ cur_node_of x = u.
Proof.
  induction l as [|c l IH] using rev_ind; [discriminate|].
  rewrite last_at_snoc. destruct (nestLevel c =? d) eqn:Hd.
  - intros [= <-]. apply Z.eqb_eq in Hd. exists c.
    split; [apply elem_of_app; right; left | auto].
  - intros H. destruct (IH H) as (x & Hx & Hx').
    exists x. split; [apply elem_of_app; left; exact Hx | exact Hx'].
Qed.

Lemma last_at_is_Some (d : Z) (l : list CallLine) (x : CallLine) :
  x ∈ l -> nestLevel x = d -> is_Some (last_at d l).
Proof.
  induction l as [|c l IH] using rev_ind; [intros H; inversion H|].
  rewrite last_at_snoc. intros Hx Hd.
  destruct (nestLevel c =? d) eqn:Hc; [eauto|].
  apply elem_of_app in Hx as [Hx|Hx]; [exact (IH Hx Hd)|].
  apply list_elem_of_singleton in Hx as ->.
  apply Z.eqb_neq in Hc. contradiction.
Qed.

Lemma stack_fold (d : Z) (calls : list CallLine) (s0 s : pstate) :
  process_all calls s0 = Done tt s ->
  stack s !! d =
  fold_left (fun acc c => if nestLevel c =? d then Some (cur_node_of c) else acc)
            calls (stack s0 !! d).
Proof.
  revert s0. induction calls as [|c calls IH]; intros s0 Hrun.
  - injection Hrun as <-. reflexivity.
  - apply process_all_cons_done in Hrun as (s1 & Hc & Hrest).
    rewrite (IH _ Hrest). simpl. f_equal.
    pose proof (stack_after_process c s0) as Hs. rewrite Hc in Hs. simpl in Hs.
    rewrite Hs. destruct (Z.eqb_spec (nestLevel c) d) as [->|Hne].
    + apply lookup_insert_eq.
    + apply lookup_insert_ne, Hne.
Qed.

Lemma stack_last_at (d : Z) (calls : list CallLine) (s : pstate) :
  process_all calls init = Done tt s -> stack s !! d = last_at d calls.
Proof. intros H. rewrite (stack_fold d calls init s H). reflexivity. Qed.

Lemma process_root (c : CallLine) (s : pstate) :
  nestLevel c = 0 -> process c s = Done tt (after_node c s).
Proof.
  intros Hz. rewrite process_eq. cbv zeta.
  apply Z.eqb_eq in Hz. rewrite Hz. reflexivity.
Qed.

Lemma process_all_snoc (l : list CallLine) (c : CallLine) (s0 s1 : pstate) :
  process_all l s0 = Done tt s1 ->
  process_all (l ++ [c]) s0 = process c s1.
Proof.
  intros H. unfold process_all in *. rewrite for_each_app, H, for_each_cons.
  destruct (process c s1) as [[] s'|e s']; reflexivity.
Qed.

(** The ways a list that ends in [c] splits around one of its elements. *)
Lemma snoc_split {A} (l : list A) (c : A) (pre : list A) (x : A) (post : list A) :
  (l ++ [c])%list = (pre ++ x :: post)%list ->
  (post = [] /\ pre = l /\ x = c)
  \/ exists post', post = (post' ++ [c])%list /\ l = (pre ++ x :: post')%list.
Proof.
  destruct post as [|z post _] using rev_ind.
  - intros H. apply app_inj_tail in H as [-> ->]. left. auto.
  - intros H. right. exists post.
    change (pre ++ x :: post ++ [z])%list with (pre ++ (x :: post) ++ [z])%list in H.
    rewrite app_assoc in H. apply app_inj_tail in H as [-> ->]. auto.
Qed.

(** ** When the parse goes through *)

(** The loop over parsed lines ends without an exception exactly when
    every line that is not at depth 0 comes after some line one level
    up. *)
Theorem parse_succeeds_iff (calls : list CallLine) :
  (exists s, process_all calls init = Done tt s)
  <-> (forall pre c post,
         calls = (pre ++ c :: post)%list -> nestLevel c <> 0 ->
         exists x, x ∈ pre /\ nestLevel x = nestLevel c - 1).
Proof.
  induction calls as [|c l IH] using rev_ind.
  - split; [|intros _; exists init; reflexivity].
    intros _ pre c post H. destruct pre; discriminate.
  - split.
    + intros [s Hrun] pre x post Hsplit Hx.
      apply process_all_app_done in Hrun as (s1 & Hl & Hc).
      apply snoc_split in Hsplit as [(-> & -> & ->)|(post' & -> & ->)].
      * destruct (last_at (nestLevel c - 1) l) as [u|] eqn:Hu.
        { destruct (last_at_Some _ _ _ Hu) as (y & Hy & Hd & _). eauto. }
        exfalso. rewrite <- (stack_last_at _ _ _ Hl) in Hu.
        unfold process_all in Hc. rewrite for_each_cons in Hc.
        rewrite (process_missing c s1 Hx Hu) in Hc. discriminate.
      * apply (proj1 IH (ex_intro _ s1 Hl) pre x post'); auto.
    + intros Hall.
      destruct (proj2 IH) as [s1 Hl].
      { intros pre x post -> Hx. apply (Hall pre x (post ++ [c])%list); [|exact Hx].
        rewrite <- app_assoc. reflexivity. }
      rewrite (process_all_snoc l c init s1 Hl).
      destruct (Z.eq_dec (nestLevel c) 0) as [Hz|Hz].
      * rewrite (process_root c s1 Hz). eauto.
      * destruct (Hall l c [] eq_refl Hz) as (x & Hx & Hd).
        destruct (last_at_is_Some _ _ _ Hx Hd) as [u Hu].
        rewrite <- (stack_last_at _ _ _ Hl) in Hu.
        destruct (process_with_ancestor c s1 u Hz Hu) as (s' & Hs' & _). eauto.
Qed.

Lemma parse_succeeds_iff_witness :
  exists s, process_all example1 init = Done tt s.
Proof.
  apply parse_succeeds_iff. intros pre c post Hsplit Hc.
  destruct pre as [|c0 pre]; [injection Hsplit as <- _; simpl in Hc; lia|].
  injection Hsplit as <- Hsplit.
  destruct pre as [|c1 pre];
    [injection Hsplit as <- _; eexists; split; [left | reflexivity]|].
  injection Hsplit as <- Hsplit.
  destruct pre as [|c2 pre];
    [injection Hsplit as <- _; eexists; split; [left | reflexivity]|].
  injection Hsplit as <- Hsplit.
  destruct pre as [|c3 pre];
    [injection Hsplit as <- _; eexists; split; [right; left | reflexivity]|].
  injection Hsplit as <- Hsplit. destruct pre; discriminate.
Defined.

(** ** The edges of the graph *)

Lemma edges_after_process (c : CallLine) (s s' : pstate) (u v : string) :
  stack_in_graph s -> process c s = Done tt s' ->
  ((u, v) ∈ DiGraph.edges (g s') <->
   (u, v) ∈ DiGraph.edges (g s)
   \/ (nestLevel c <> 0 /\ stack s !! (nestLevel c - 1) = Some u
       /\ v = cur_node_of c)).
Proof.
  intros Hst Hrun.
  destruct (process_done_graph c s s' Hst Hrun)
    as (_ & [[Hz ->]|(p & Hz & Hp & _ & [[-> He]|Hg])]).
  - rewrite edges_after_node. split; [auto|]. intros [H|(H & _)]; [exact H | contradiction].
  - rewrite edges_after_node. split; [auto|].
    intros [H|(_ & Hu & ->)]; [exact H|].
    rewrite Hp in Hu. injection Hu as <-.
    apply has_edge_elem in He. rewrite edges_after_node in He. exact He.
  - rewrite Hg, elem_of_edges_add_edge, edges_after_node. split.
    + intros [[= -> ->]|H]; [right; auto | left; exact H].
    + intros [H|(_ & Hu & ->)]; [right; exact H|].
      rewrite Hp in Hu. injection Hu as <-. left. reflexivity.
Qed.

(** The edges of the graph are exactly the pairs (caller, line) where
    the line is not at depth 0 and the caller is the identifier of the
    last earlier line one level up. *)
Theorem edges_are_calls (calls : list CallLine) (s : pstate) (u v : string) :
  process_all calls init = Done tt s ->
  ((u, v) ∈ DiGraph.edges (g s) <->
   exists pre c post,
     calls = (pre ++ c :: post)%list /\ nestLevel c <> 0
     /\ cur_node_of c = v /\ last_at (nestLevel c - 1) pre = Some u).
Proof.
  revert s. induction calls as [|c l IH] using rev_ind; intros s Hrun.
  - injection Hrun as <-. split; [intros H; inversion H|].
    intros (pre & c & post & H & _). destruct pre; discriminate.
  - apply process_all_app_done in Hrun as (s1 & Hl & Hc).
    unfold process_all in Hc. rewrite for_each_cons in Hc.
    destruct (process c s1) as [[] s2|e s2] eqn:Hp; [|discriminate].
    injection Hc as ->.
    destruct (process_all_done_inv _ _ Hl) as (_ & _ & Hst).
    rewrite (edges_after_process c s1 s u v Hst Hp), (IH s1 Hl).
    rewrite (stack_last_at _ _ _ Hl). split.
    + intros [(pre & x & post & -> & Hx)|(Hz & Hu & ->)].
      * exists pre, x, (post ++ [c])%list. split; [|exact Hx].
        rewrite <- app_assoc. reflexivity.
      * exists l, c, []. auto.
    + intros (pre & x & post & Hsplit & Hz & Hv & Hu).
      apply snoc_split in Hsplit as [(-> & -> & ->)|(post' & -> & ->)].
      * right. auto.
      * left. exists pre, x, post'. auto.
Qed.

Lemma edges_are_calls_witness :
  exists s, process_all example1 init = Done tt s
            /\ ("bar", "foo") ∈ DiGraph.edges (g s).
Proof.
  pose (s := state_of (process_all example1 init)).
  assert (Hrun : process_all example1 init = Done tt s) by (vm_compute; reflexivity).
  exists s. split; [exact Hrun|].
  apply (edges_are_calls example1 s "bar" "foo" Hrun).
  exists [ {| nestLevel := 0; functionName := "main"; sourceLine := 10 |};
           {| nestLevel := 1; functionName := "foo"; sourceLine := 20 |};
           {| nestLevel := 1; functionName := "bar"; sourceLine := -1 |} ],
         {| nestLevel := 2; functionName := "foo"; sourceLine := 20 |}, [].
  split; [reflexivity|]. split; [simpl; lia|]. split; reflexivity.
Defined.

(** ** The first occurrence decides the attributes *)

Lemma node_attr_add_edge (n u v : string) (a : DiGraph.attrs) (gr : DiGraph.t) :
  DiGraph.attr <$> DiGraph.get n gr = Some a ->
  DiGraph.attr <$> DiGraph.get n (DiGraph.add_edge u v gr) = Some a.
Proof.
  intros H. unfold DiGraph.add_edge. rewrite get_update.
  assert (He : DiGraph.attr <$> DiGraph.get n
                 (DiGraph.ensure_node v (DiGraph.ensure_node u gr)) = Some a).
  { unfold DiGraph.ensure_node.
    destruct (DiGraph.has_node u gr); destruct (DiGraph.has_node v _);
      rewrite ?get_app; destruct (DiGraph.get n gr); try discriminate; exact H. }
  destruct (String.eqb n u); [|exact He].
  destruct (DiGraph.get n (DiGraph.ensure_node v (DiGraph.ensure_node u gr)));
    [exact He | discriminate].
Qed.

Lemma node_attr_after_node (n : string) (a : DiGraph.attrs) (c : CallLine)
    (s : pstate) :
  DiGraph.attr <$> DiGraph.get n (g s) = Some a ->
  DiGraph.attr <$> DiGraph.get n (g (after_node c s)) = Some a.
Proof.
  intros H. unfold after_node; simpl.
  destruct (DiGraph.has_node (cur_node_of c) (g s)) eqn:Hn; [exact H|].
  unfold DiGraph.add_node. rewrite Hn, get_app.
  destruct (DiGraph.get n (g s)); [exact H | discriminate].
Qed.

Lemma node_attr_new (c : CallLine) (s : pstate) :
  DiGraph.has_node (cur_node_of c) (g s) = false ->
  DiGraph.attr <$> DiGraph.get (cur_node_of c) (g (after_node c s))
  = Some {| DiGraph.nest_level := Some (nestLevel c);
            DiGraph.src_line := Some (sourceLine c) |}.
Proof.
  intros Hn. unfold after_node; simpl. rewrite Hn.
  unfold DiGraph.add_node. rewrite Hn, get_app.
  unfold DiGraph.has_node in Hn.
  destruct (DiGraph.get (cur_node_of c) (g s)); [discriminate|].
  simpl. rewrite String.eqb_refl. reflexivity.
Qed.

(** Once a node has its attributes, no later line changes them. *)
Lemma node_attr_kept (n : string) (a : DiGraph.attrs) (c : CallLine)
    (s s' : pstate) :
  process c s = Done tt s' ->
  DiGraph.attr <$> DiGraph.get n (g (after_node c s)) = Some a ->
  DiGraph.attr <$> DiGraph.get n (g s') = Some a.
Proof.
  rewrite process_eq. cbv zeta.
  destruct (nestLevel c =? 0); [intros [= <-]; auto|].
  destruct (stack (after_node c s) !! (nestLevel c - 1)); [|discriminate].
  destruct (DiGraph.has_edge _ _ _); intros [= <-]; [auto|].
  cbn [g]. apply node_attr_add_edge.
Qed.

Lemma node_attr_kept_all (n : string) (a : DiGraph.attrs)
    (calls : list CallLine) (s s' : pstate) :
  process_all calls s = Done tt s' ->
  DiGraph.attr <$> DiGraph.get n (g s) = Some a ->
  DiGraph.attr <$> DiGraph.get n (g s') = Some a.
Proof.
  revert s. induction calls as [|c calls IH]; intros s Hrun Ha.
  - injection Hrun as <-. exact Ha.
  - apply process_all_cons_done in Hrun as (s1 & Hc & Hrest).
    apply (IH s1 Hrest), (node_attr_kept n a c s s1 Hc),
      node_attr_after_node, Ha.
Qed.

Lemma first_line_attrs (n : string) (c : CallLine) (calls : list CallLine)
    (s s' : pstate) :
  parser_inv s -> process_all calls s = Done tt s' ->
  DiGraph.has_node n (g s) = false ->
  first_line_of n calls = Some c ->
  DiGraph.attr <$> DiGraph.get n (g s')
  = Some {| DiGraph.nest_level := Some (nestLevel c);
            DiGraph.src_line := Some (sourceLine c) |}.
Proof.
  revert s. induction calls as [|x calls IH]; intros s Hinv Hrun Hn Hf;
    [discriminate|].
  apply process_all_cons_done in Hrun as (s1 & Hx & Hrest).
  unfold first_line_of in Hf. simpl in Hf.
  destruct (String.eqb_spec (cur_node_of x) n) as [<-|Hne].
  - injection Hf as <-.
    apply (node_attr_kept_all _ _ calls s1 s' Hrest),
      (node_attr_kept _ _ x s s1 Hx), node_attr_new, Hn.
  - pose proof (process_inv x s Hinv) as Hinv1.
    pose proof (has_node_after_process x s n (proj2 (proj2 Hinv))) as Hn1.
    rewrite Hx in Hinv1, Hn1. simpl in Hinv1, Hn1.
    apply (IH s1 Hinv1 Hrest); [|exact Hf].
    rewrite Hn1, Hn.
    destruct (String.eqb_spec n (cur_node_of x)); [congruence | reflexivity].
Qed.

(** Every node of the graph has the nesting level and the source line
    of the first line that names it; later lines for the same name do
    not change them. *)
Theorem first_occurrence_wins (calls : list CallLine) (s : pstate) (n : string) :
  process_all calls init = Done tt s ->
  n ∈ DiGraph.nodes (g s) ->
  exists c,
    first_line_of n calls = Some c
    /\ DiGraph.node_nest_level n (g s) = inr (nestLevel c)
    /\ DiGraph.node_src_line n (g s) = inr (sourceLine c).
Proof.
  intros Hrun Hn.
  apply (nodes_are_identifiers calls init s n init_inv Hrun) in Hn
    as [Hn|(x & Hx & ->)]; [inversion Hn|].
  destruct (first_line_of (cur_node_of x) calls) as [c|] eqn:Hf.
  - exists c. split; [reflexivity|].
    pose proof (first_line_attrs _ c calls init s init_inv Hrun eq_refl Hf) as Ha.
    unfold DiGraph.node_nest_level, DiGraph.node_src_line.
    destruct (DiGraph.get (cur_node_of x) (g s)) as [d|]; [|discriminate].
    injection Ha as ->. split; reflexivity.
  - exfalso. unfold first_line_of in Hf.
    apply find_none with (x := x) in Hf; [|apply list_elem_of_In, Hx].
    rewrite String.eqb_refl in Hf. discriminate.
Qed.

Lemma first_occurrence_wins_witness :
  exists s,
    process_all
      [ {| nestLevel := 0; functionName := "main"; sourceLine := 10 |};
        {| nestLevel := 1; functionName := "foo"; sourceLine := -1 |};
        {| nestLevel := 1; functionName := "bar"; sourceLine := 30 |};
        {| nestLevel := 2; functionName := "foo"; sourceLine := 20 |} ] init
    = Done tt s
    /\ DiGraph.node_nest_level "foo" (g s) = inr 1
    /\ DiGraph.node_src_line "foo" (g s) = inr (-1).
Proof.
  pose (calls :=
      [ {| nestLevel := 0; functionName := "main"; sourceLine := 10 |};
        {| nestLevel := 1; functionName := "foo"; sourceLine := -1 |};
        {| nestLevel := 1; functionName := "bar"; sourceLine := 30 |};
        {| nestLevel := 2; functionName := "foo"; sourceLine := 20 |} ]).
  pose (s := state_of (process_all calls init)).
  assert (Hrun : process_all calls init = Done tt s) by (vm_compute; reflexivity).
  exists s. split; [exact Hrun|].
  destruct (first_occurrence_wins calls s "foo" Hrun) as (c & Hc & Hn & Hs).
  - vm_compute. right. left.
  - injection Hc as <-. split; [exact Hn | exact Hs].
Defined.

(** ** Nodes come in order of first appearance *)

Lemma first_seen_nodes (calls : list CallLine) (s s' : pstate) :
  parser_inv s -> process_all calls s = Done tt s' ->
  DiGraph.nodes (g s') =
  (DiGraph.nodes (g s)
     ++ filter (fun y => y ∉ DiGraph.nodes (g s))
               (first_seen (map cur_node_of calls)))%list.
Proof.
  revert s. induction calls as [|c calls IH]; intros s Hinv Hrun.
  - injection Hrun as <-. simpl. rewrite app_nil_r. reflexivity.
  - apply process_all_cons_done in Hrun as (s1 & Hc & Hrest).
    pose proof (process_inv c s Hinv) as Hinv1. rewrite Hc in Hinv1.
    simpl in Hinv1. rewrite (IH s1 Hinv1 Hrest).
    destruct (process_done_graph c s s1 (proj2 (proj2 Hinv)) Hc) as [-> _].
    rewrite nodes_after_node.
    cbn [map first_seen]. set (F := first_seen (map cur_node_of calls)).
    destruct (DiGraph.has_node (cur_node_of c) (g s)) eqn:Hn.
    + apply has_node_nodes in Hn. f_equal.
      rewrite filter_cons_False by (intros H; exact (H Hn)).
      rewrite list_filter_filter. apply list_filter_iff.
      intros y. split; [intros H; split; [exact H | congruence] | tauto].
    + apply has_node_false in Hn. rewrite <- app_assoc. f_equal.
      rewrite filter_cons_True by exact Hn. simpl. f_equal.
      rewrite list_filter_filter. apply list_filter_iff.
      intros y. rewrite elem_of_app, list_elem_of_singleton. tauto.
Qed.

(** The nodes of the graph are the identifiers of the lines, each once,
    in the order in which the input first names them. *)
Theorem nodes_in_order_of_appearance (calls : list CallLine) (s : pstate) :
  process_all calls init = Done tt s ->
  DiGraph.nodes (g s) = first_seen (map cur_node_of calls).
Proof.
  intros Hrun. rewrite (first_seen_nodes calls init s init_inv Hrun). simpl.
  induction (first_seen (map cur_node_of calls)) as [|x l IH]; [reflexivity|].
  rewrite filter_cons_True by (intros H; inversion H). f_equal. exact IH.
Qed.

Lemma nodes_in_order_of_appearance_witness :
  exists s, process_all example1 init = Done tt s
            /\ DiGraph.nodes (g s) = ["main"; "foo"; "bar"].
Proof.
  pose (s := state_of (process_all example1 init)).
  assert (Hrun : process_all example1 init = Done tt s) by (vm_compute; reflexivity).
  exists s. split; [exact Hrun|].
  rewrite (nodes_in_order_of_appearance example1 s Hrun). reflexivity.
Defined.

(** * Further properties of the text normaliser *)

(** ** Blank lines and carriage returns *)

Lemma for_each_non_blank (lines : list string) (s : pstate) :
  for_each (non_blank lines) loop_body s = for_each lines loop_body s.
Proof.
  revert s. unfold non_blank.
  induction lines as [|l lines IH]; intros s; [reflexivity|].
  destruct (decide (l = "")) as [->|Hne].
  - rewrite filter_cons_False by (intros H; exact (H eq_refl)).
    rewrite for_each_cons. change (loop_body "" s) with (Done tt s : outcome pstate unit).
    apply IH.
  - rewrite filter_cons_True by exact Hne. rewrite !for_each_cons.
    destruct (loop_body l s) as [[] s'|e s']; [apply IH | reflexivity].
Qed.

(** Two texts that differ only in carriage returns and blank lines give
    the same graph, or the same exception, whatever the file name. *)
Theorem blank_lines_and_cr_ignored (a b fa fb : string) :
  non_blank (lines_of a) = non_blank (lines_of b) ->
  cflow2nx a fa = cflow2nx b fb.
Proof.
  intros H. unfold cflow2nx, cflow2nx_lines, bind.
  rewrite <- (for_each_non_blank (lines_of a)), <- (for_each_non_blank (lines_of b)).
  rewrite H. reflexivity.
Qed.

Lemma blank_lines_and_cr_ignored_witness :
  cflow2nx (String.append "{   0} main()"
             (String Py.carriage_return (String Py.newline
               (String Py.carriage_return (String Py.newline
                 (String.append "{   1}     foo()"
                   (String Py.newline EmptyString))))))) "a.c"
  = cflow2nx (String.append "{   0} main()"
               (String Py.newline "{   1}     foo()")) "b.c".
Proof. apply blank_lines_and_cr_ignored. vm_compute. reflexivity. Defined.

(** ** Characters *)

Lemma all_chars_occurs (p : ascii -> bool) (x : ascii) (s : string) :
  all_chars p s = true -> p x = false -> occurs x s = false.
Proof.
  intros Hs Hx. induction s as [|c r IH]; [reflexivity|].
  simpl in *. apply andb_true_iff in Hs as [Hc Hr]. rewrite (IH Hr).
  destruct (Ascii.eqb_spec c x) as [->|]; [congruence | reflexivity].
Qed.

Lemma digit_not_space (c : ascii) : Py.is_digit c = true -> Py.is_space c = false.
Proof.
  destruct c as [[] [] [] [] [] [] [] []]; vm_compute; congruence.
Qed.

Lemma occurs_app (x : ascii) (a b : string) :
  occurs x (a +:+ b) = occurs x a || occurs x b.
Proof.
  induction a as [|c r IH]; simpl; [reflexivity|].
  rewrite IH. apply orb_assoc.
Qed.

(** ** The three substitutions on a line with numbered nesting *)

Lemma dot_star_dollar_line (s : string) :
  occurs Py.newline s = false -> Re.dot_star_dollar s = Some EmptyString.
Proof.
  induction s as [|c r IH]; simpl; [reflexivity|].
  intros H. apply orb_false_iff in H as [Hc Hr]. rewrite Hc. exact (IH Hr).
Qed.

Lemma sub_paren_to_end_cut (p rest : string) :
  occurs "(" p = false -> occurs Py.newline rest = false ->
  Re.sub_paren_to_end (p +:+ String "(" rest) = p.
Proof.
  intros Hp Hrest. induction p as [|c r IH]; simpl.
  - rewrite (dot_star_dollar_line _ Hrest). reflexivity.
  - simpl in Hp. apply orb_false_iff in Hp as [Hc Hr].
    rewrite Hc, (IH Hr). reflexivity.
Qed.

Lemma lstrip_spaces (ws t : string) :
  all_chars Py.is_space ws = true -> Py.lstrip (ws +:+ t) = Py.lstrip t.
Proof.
  induction ws as [|c r IH]; simpl; [reflexivity|].
  intros H. apply andb_true_iff in H as [Hc Hr]. rewrite Hc. exact (IH Hr).
Qed.

Lemma lstrip_solid (t : string) : starts_solid t = true -> Py.lstrip t = t.
Proof.
  destruct t as [|c r]; simpl; [reflexivity|].
  intros H. apply negb_true_iff in H. rewrite H. reflexivity.
Qed.

Lemma sub_closing_brace_plain (s : string) :
  occurs "}" s = false -> Re.sub_closing_brace_from false s = s.
Proof.
  induction s as [|c r IH]; simpl; [reflexivity|].
  intros H. apply orb_false_iff in H as [Hc Hr]. rewrite Hc, (IH Hr). reflexivity.
Qed.

Lemma sub_closing_brace_prefix (p t : string) :
  occurs "}" p = false ->
  Re.sub_closing_brace_from false (p +:+ t) = p +:+ Re.sub_closing_brace_from false t.
Proof.
  induction p as [|c r IH]; simpl; [reflexivity|].
  intros H. apply orb_false_iff in H as [Hc Hr]. rewrite Hc, (IH Hr). reflexivity.
Qed.

Lemma sub_closing_brace_eats (ws t : string) :
  all_chars Py.is_space ws = true ->
  Re.sub_closing_brace_from true (ws +:+ t) = Re.sub_closing_brace_from true t.
Proof.
  induction ws as [|c r IH]; simpl; [reflexivity|].
  intros H. apply andb_true_iff in H as [Hc Hr]. rewrite Hc. exact (IH Hr).
Qed.

Lemma sub_closing_brace_solid (t : string) :
  starts_solid t = true -> occurs "}" t = false ->
  Re.sub_closing_brace_from true t = t.
Proof.
  destruct t as [|c r]; simpl; [reflexivity|].
  intros Hs H. apply negb_true_iff in Hs.
  apply orb_false_iff in H as [Hc Hr].
  rewrite Hs, Hc, (sub_closing_brace_plain r Hr). reflexivity.
Qed.

Lemma split_no_sep (sep : ascii) (s : string) :
  occurs sep s = false -> Py.split sep s = [s].
Proof.
  induction s as [|c r IH]; simpl; [reflexivity|].
  intros H. apply orb_false_iff in H as [Hc Hr]. rewrite Hc, (IH Hr). reflexivity.
Qed.

Lemma split_at_sep (sep : ascii) (a b : string) :
  occurs sep a = false ->
  Py.split sep (a +:+ String sep b) = a :: Py.split sep b.
Proof.
  induction a as [|c r IH]; simpl.
  - rewrite Ascii.eqb_refl. reflexivity.
  - intros H. apply orb_false_iff in H as [Hc Hr]. rewrite Hc, (IH Hr). reflexivity.
Qed.

(** ** [int] on a run of digits *)

Lemma rstrip_solid (s : string) :
  all_chars (fun c => negb (Py.is_space c)) s = true -> Py.rstrip s = s.
Proof.
  induction s as [|c r IH]; simpl; [reflexivity|].
  intros H. apply andb_true_iff in H as [Hc Hr]. rewrite (IH Hr).
  apply negb_true_iff in Hc. rewrite Hc. destruct r; reflexivity.
Qed.

Lemma all_chars_impl (p q : ascii -> bool) (s : string) :
  (forall c, p c = true -> q c = true) ->
  all_chars p s = true -> all_chars q s = true.
Proof.
  intros Hpq. induction s as [|c r IH]; simpl; [reflexivity|].
  intros H. apply andb_true_iff in H as [Hc Hr].
  rewrite (Hpq c Hc), (IH Hr). reflexivity.
Qed.

Lemma int_digits_of_digits (s : string) :
  all_chars Py.is_digit s = true ->
  forall acc after, 0 <= acc -> s <> EmptyString \/ after = true ->
  exists n, Py.int_digits acc after s = Some n /\ 0 <= n.
Proof.
  induction s as [|c r IH]; simpl; intros Hs acc after Hacc Hne.
  - destruct Hne as [Hne| ->]; [contradiction | eauto].
  - apply andb_true_iff in Hs as [Hc Hr].
    unfold Py.digit_val. rewrite Hc.
    apply (IH Hr); [|right; reflexivity].
    unfold Py.is_digit in Hc. apply andb_true_iff in Hc as [Hlo _]. lia.
Qed.

Lemma int_of_digits (s : string) :
  all_chars Py.is_digit s = true -> s <> EmptyString ->
  exists n, Py.int s = Some n /\ 0 <= n.
Proof.
  intros Hs Hne. unfold Py.int, Py.strip.
  assert (Hsolid : all_chars (fun c => negb (Py.is_space c)) s = true).
  { apply (all_chars_impl Py.is_digit); [|exact Hs].
    intros c Hc. rewrite (digit_not_space c Hc). reflexivity. }
  destruct s as [|c r]; [contradiction|].
  assert (Hc : Py.is_digit c = true)
    by (simpl in Hs; apply andb_true_iff in Hs as [Hc _]; exact Hc).
  rewrite lstrip_solid by (simpl; rewrite (digit_not_space c Hc); reflexivity).
  rewrite (rstrip_solid _ Hsolid).
  destruct (int_digits_of_digits (String c r) Hs 0 false ltac:(lia)
              ltac:(left; discriminate)) as (n & Hn & Hpos).
  exists n. split; [|exact Hpos]. rewrite <- Hn.
  destruct c as [[] [] [] [] [] [] [] []];
    first [ reflexivity | vm_compute in Hc; discriminate ].
Qed.

(** ** A line with numbered nesting *)

Lemma string_app_assoc (a b c : string) : (a +:+ b) +:+ c = a +:+ (b +:+ c).
Proof.
  induction a as [|x r IH]; [reflexivity|].
  change (String x ((r +:+ b) +:+ c) = String x (r +:+ (b +:+ c))).
  rewrite IH. reflexivity.
Qed.

Lemma trim_numbered (ws1 lvl ws2 name rest : string) :
  all_chars Py.is_space ws1 = true -> all_chars Py.is_space ws2 = true ->
  all_chars Py.is_digit lvl = true -> lvl <> EmptyString ->
  occurs "(" name = false -> occurs "}" name = false ->
  starts_solid name = true -> occurs Py.newline rest = false ->
  trim (String "{" (ws1 +:+ lvl +:+ String "}" (ws2 +:+ name +:+ String "(" rest)))
  = lvl +:+ String Py.tab name.
Proof.
  intros Hws1 Hws2 Hlvl Hne Hparen Hbrace Hsolid Hrest. unfold trim.
  assert (Hcut : Re.sub_paren_to_end
            (String "{" (ws1 +:+ lvl +:+ String "}" (ws2 +:+ name +:+ String "(" rest)))
          = String "{" (ws1 +:+ lvl +:+ String "}" (ws2 +:+ name))).
  { replace (String "{" (ws1 +:+ lvl +:+ String "}" (ws2 +:+ name +:+ String "(" rest)))
      with (String "{" (ws1 +:+ lvl +:+ String "}" (ws2 +:+ name)) +:+ String "(" rest).
    - apply sub_paren_to_end_cut; [|exact Hrest].
      simpl. rewrite !occurs_app. simpl. rewrite occurs_app.
      rewrite (all_chars_occurs _ "(" ws1 Hws1 eq_refl).
      rewrite (all_chars_occurs _ "(" lvl Hlvl eq_refl).
      rewrite (all_chars_occurs _ "(" ws2 Hws2 eq_refl), Hparen. reflexivity.
    - change (String "{" ?x +:+ ?y) with (String "{" (x +:+ y)). f_equal.
      rewrite !string_app_assoc.
      change (String "}" ?x +:+ ?y) with (String "}" (x +:+ y)).
      rewrite !string_app_assoc. reflexivity. }
  rewrite Hcut. unfold Re.sub_leading_brace.
  rewrite (lstrip_spaces ws1 _ Hws1).
  destruct lvl as [|c r]; [contradiction|].
  assert (Hc : Py.is_digit c = true)
    by (simpl in Hlvl; apply andb_true_iff in Hlvl as [Hc _]; exact Hc).
  rewrite lstrip_solid by (simpl; rewrite (digit_not_space c Hc); reflexivity).
  unfold Re.sub_closing_brace.
  rewrite sub_closing_brace_prefix
    by exact (all_chars_occurs _ "}" _ Hlvl eq_refl).
  f_equal. simpl.
  rewrite (sub_closing_brace_eats ws2 name Hws2).
  rewrite (sub_closing_brace_solid name Hsolid Hbrace). reflexivity.
Qed.

(** A line of numbered output, an opening brace, a level in digits, a
    closing brace and a name before the first parenthesis, is read as
    that level and that name, with any white space around the level
    and before the name dropped. *)
Theorem parse_line_numbered (ws1 lvl ws2 name rest : string) :
  all_chars Py.is_space ws1 = true -> all_chars Py.is_space ws2 = true ->
  all_chars Py.is_digit lvl = true -> lvl <> EmptyString ->
  occurs "(" name = false -> occurs "}" name = false ->
  occurs Py.tab name = false -> starts_solid name = true ->
  occurs Py.newline rest = false ->
  let line :=
    String "{" (ws1 +:+ lvl +:+ String "}" (ws2 +:+ name +:+ String "(" rest)) in
  exists n,
    Py.int lvl = Some n /\ 0 <= n
    /\ parse_line line =
       match src_line_no line with
       | inl e => inl e
       | inr src => inr {| nestLevel := n; functionName := name;
                           sourceLine := src |}
       end.
Proof.
  intros Hws1 Hws2 Hlvl Hne Hparen Hbrace Htab Hsolid Hrest line.
  destruct (int_of_digits lvl Hlvl Hne) as (n & Hn & Hpos).
  exists n. split; [exact Hn|]. split; [exact Hpos|].
  unfold parse_line. destruct (src_line_no line); [reflexivity|].
  unfold line.
  rewrite (trim_numbered ws1 lvl ws2 name rest) by assumption.
  rewrite split_at_sep by exact (all_chars_occurs _ Py.tab _ Hlvl eq_refl).
  rewrite (split_no_sep _ _ Htab), Hn. reflexivity.
Qed.

Lemma parse_line_numbered_witness :
  exists n,
    Py.int "12" = Some n /\ 0 <= n
    /\ parse_line "{  12}     foo_bar() <void foo_bar (int) at a.c:7>:"
       = inr {| nestLevel := n; functionName := "foo_bar"; sourceLine := 7 |}.
Proof.
  destruct (parse_line_numbered "  " "12" "     " "foo_bar"
              ") <void foo_bar (int) at a.c:7>:")
    as (n & Hn & Hpos & Hp); try reflexivity; [discriminate|].
  exists n. split; [exact Hn|]. split; [exact Hpos | exact Hp].
Defined.

(** ** A line without numbered nesting *)

Lemma dot_star_dollar_occurs (x : ascii) (s rest : string) :
  Re.dot_star_dollar s = Some rest -> occurs x s = false -> occurs x rest = false.
Proof.
  induction s as [|c r IH]; simpl.
  - intros [= <-] _. reflexivity.
  - destruct (Ascii.eqb c Py.newline).
    + destruct r; [|discriminate]. intros [= <-] H. exact H.
    + intros H Hx. apply orb_false_iff in Hx as [_ Hr]. exact (IH H Hr).
Qed.

Lemma sub_paren_to_end_occurs (x : ascii) (s : string) :
  occurs x s = false -> occurs x (Re.sub_paren_to_end s) = false.
Proof.
  induction s as [|c r IH]; simpl; [reflexivity|].
  intros H. apply orb_false_iff in H as [Hc Hr].
  destruct (Ascii.eqb c "(").
  - destruct (Re.dot_star_dollar r) as [rest|] eqn:Hd.
    + exact (dot_star_dollar_occurs x r rest Hd Hr).
    + simpl. rewrite Hc. exact (IH Hr).
  - simpl. rewrite Hc. exact (IH Hr).
Qed.

Lemma lstrip_occurs (x : ascii) (s : string) :
  occurs x s = false -> occurs x (Py.lstrip s) = false.
Proof.
  induction s as [|c r IH]; simpl; [reflexivity|].
  intros H. destruct (Py.is_space c); [|exact H].
  apply orb_false_iff in H as [_ Hr]. exact (IH Hr).
Qed.

Lemma sub_leading_brace_occurs (x : ascii) (s : string) :
  occurs x s = false -> occurs x (Re.sub_leading_brace s) = false.
Proof.
  intros H. unfold Re.sub_leading_brace.
  destruct s as [|c r]; [reflexivity|].
  assert (Hr : occurs x r = false)
    by (simpl in H; apply orb_false_iff in H as [_ Hr]; exact Hr).
  pose proof (lstrip_occurs x r Hr) as Hl.
  destruct c as [[] [] [] [] [] [] [] []]; first [exact H | exact Hl].
Qed.

(** A line with no closing brace and no tab, such as a line of output
    without numbered nesting, is refused with [ValueError]. *)
Theorem parse_line_unnumbered (line : string) :
  occurs "}" line = false -> occurs Py.tab line = false ->
  parse_line line = inl ValueError.
Proof.
  intros Hbrace Htab. unfold parse_line.
  destruct (src_line_no line) as [e|src] eqn:Hsrc.
  - unfold src_line_no in Hsrc.
    destruct (Re.findall_colon_gt line); [discriminate|].
    destruct (Py.int _); congruence.
  - unfold trim, Re.sub_closing_brace.
    rewrite sub_closing_brace_plain
      by (apply sub_leading_brace_occurs, sub_paren_to_end_occurs, Hbrace).
    rewrite split_no_sep
      by (apply sub_leading_brace_occurs, sub_paren_to_end_occurs, Htab).
    reflexivity.
Qed.

Lemma parse_line_unnumbered_witness :
  parse_line "    foo() <void foo (void) at t.c:20>:" = inl ValueError.
Proof. apply parse_line_unnumbered; reflexivity. Defined.

(** * Further properties of the renamer and the formatter *)

(** Renaming twice is renaming once: the identifier it returns is never
    renamed again. *)
Theorem rename_idempotent (word : string) :
  rename_if_reserved_by_dot (rename_if_reserved_by_dot word)
  = rename_if_reserved_by_dot word.
Proof.
  unfold rename_if_reserved_by_dot at 2.
  destruct (Py.mem (Py.lower word) _DOT_RESERVED) eqn:H.
  - unfold rename_if_reserved_by_dot. rewrite lower_app.
    destruct (reserved_cases _ H) as [-> | [-> | [-> | [-> | [-> | ->]]]]];
      reflexivity.
  - unfold rename_if_reserved_by_dot. rewrite H. reflexivity.
Qed.

(** Colour and shape repeat with period 5 away from level 0: two levels
    five apart, neither of them 0, are drawn alike. *)
Theorem styling_period (nest_level : Z) :
  nest_level <> 0 -> nest_level + 5 <> 0 ->
  choose_color_shape (nest_level + 5) = choose_color_shape nest_level.
Proof.
  intros H0 H5. unfold choose_color_shape.
  apply Z.eqb_neq in H0, H5. rewrite H0, H5.
  replace (nest_level + 5 - 1) with (nest_level - 1 + 1 * 5) by lia.
  replace (nest_level + 5) with (nest_level + 1 * 5) by lia.
  rewrite !Z_mod_plus_full. reflexivity.
Qed.

Lemma styling_period_witness :
  choose_color_shape 7 = choose_color_shape 2.
Proof. apply (styling_period 2); lia. Defined.

Lemma sub_underscore_plain (s : string) :
  occurs "_" s = false -> Re.sub_underscore s = s.
Proof.
  induction s as [|c r IH]; simpl; [reflexivity|].
  intros H. apply orb_false_iff in H as [Hc Hr]. rewrite Hc, (IH Hr). reflexivity.
Qed.

(** Escaping leaves a text as it is exactly when LaTeX output is not
    asked for or the text has no underscore; the graph title is escaped
    like a node label. *)
Theorem escape_identity_iff (s : string) (for_latex : bool) :
  (_escape_underscores s for_latex = s
   <-> for_latex = false \/ occurs "_" s = false)
  /\ _graph_name_for_latex s for_latex = _escape_underscores s for_latex.
Proof.
  split; [|reflexivity]. unfold _escape_underscores. destruct for_latex.
  - split.
    + intros H. right. destruct (occurs "_" s) eqn:Ho; [|reflexivity].
      exfalso. exact (sub_underscore_changes s Ho H).
    + intros [H|H]; [discriminate | apply sub_underscore_plain, H].
  - split; auto.
Qed.

(** ** The query on a list put together from two *)

(** A node is defined in one of the graphs of two lists put together
    exactly when it is defined in a graph of the first or in a graph of
    the second. *)
Theorem defined_in_app (node : string) (a b : list DiGraph.t) :
  Forall attributed a -> Forall attributed b ->
  exists da db,
    node_defined_in_other_src node a = Done da a
    /\ node_defined_in_other_src node b = Done db b
    /\ node_defined_in_other_src node (a ++ b)%list = Done (da || db) (a ++ b)%list.
Proof.
  intros Ha Hb. unfold node_defined_in_other_src.
  destruct (defined_loop_attributed node a Ha false) as (da & Hda & Hia).
  destruct (defined_loop_attributed node b Hb false) as (db & Hdb & Hib).
  destruct (defined_loop_attributed node (a ++ b)%list
              ltac:(apply Forall_app; split; assumption) false)
    as (dab & Hdab & Hiab).
  exists da, db. split; [exact Hda|]. split; [exact Hdb|].
  rewrite Hdab. f_equal. apply eq_true_iff_eq.
  rewrite orb_true_iff, Hiab, Hia, Hib. split.
  - intros [H|(gr & l & Hin & H)]; [discriminate|].
    apply elem_of_app in Hin as [Hin|Hin]; [left | right]; right; eauto.
  - intros [[H|(gr & l & Hin & H)]|[H|(gr & l & Hin & H)]]; try discriminate;
      right; exists gr, l; (split; [apply elem_of_app; auto | exact H]).
Qed.

Lemma defined_in_app_witness :
  let graphA : DiGraph.t :=
    [("helper", {| DiGraph.attr := {| DiGraph.nest_level := Some 1;
                                      DiGraph.src_line := Some (-1) |};
                   DiGraph.succ := [] |})] in
  let graphB : DiGraph.t :=
    [("helper", {| DiGraph.attr := {| DiGraph.nest_level := Some 0;
                                      DiGraph.src_line := Some 42 |};
                   DiGraph.succ := [] |})] in
  node_defined_in_other_src "helper" [graphA; graphB]
  = Done true [graphA; graphB].
Proof.
  cbv zeta.
  destruct (defined_in_app "helper"
    [[("helper", {| DiGraph.attr := {| DiGraph.nest_level := Some 1;
                                       DiGraph.src_line := Some (-1) |};
                    DiGraph.succ := [] |})]]
    [[("helper", {| DiGraph.attr := {| DiGraph.nest_level := Some 0;
                                       DiGraph.src_line := Some 42 |};
                    DiGraph.succ := [] |})]])
    as (da & db & Ha & Hb & Hab).
  - repeat constructor. simpl. eauto.
  - repeat constructor. simpl. eauto.
  - injection Ha as <-. injection Hb as <-. exact Hab.
Defined.

(** * Pruning and the dot text *)

Lemma process_all_more (calls : list CallLine) :
  let s := state_of (process_all calls init) in
  parser_inv s /\ has_both_attrs (g s) /\ edges_closed (g s).
Proof.
  exact (for_each_invariant process _ process_keeps_more calls init init_more).
Qed.

Lemma cflow2nx_more (cflow_str c_fname : string) (gr : DiGraph.t) (s : pstate) :
  cflow2nx cflow_str c_fname = Done gr s ->
  has_both_attrs gr /\ edges_closed gr.
Proof.
  unfold cflow2nx, cflow2nx_lines, bind, reads. intros H.
  pose proof (for_each_invariant loop_body _ loop_body_keeps_more
                (lines_of cflow_str) init init_more) as Hinv.
  destruct (for_each (lines_of cflow_str) loop_body init) as [[] s'|e s'];
    [|discriminate].
  injection H as <- <-. exact (proj2 Hinv).
Qed.

(** ** What pruning removes *)

Lemma nodes_remove_node (n : string) (gr : DiGraph.t) :
  DiGraph.nodes (DiGraph.remove_node n gr) = filter (fun x => x <> n) (DiGraph.nodes gr).
Proof.
  unfold DiGraph.nodes, DiGraph.remove_node, DiGraph.t.
  induction gr as [|[m d] gr IH]; [reflexivity|].
  destruct (decide (m = n)) as [->|Hne].
  - rewrite filter_cons_False by (simpl; intros H; exact (H eq_refl)).
    change (map fst ((n, d) :: gr)) with (n :: map fst gr).
    rewrite filter_cons_False by (intros H; exact (H eq_refl)).
    exact IH.
  - rewrite filter_cons_True by exact Hne.
    change (map fst ((m, d) :: gr)) with (m :: map fst gr).
    rewrite filter_cons_True by exact Hne. cbn [map fst]. f_equal. exact IH.
Qed.

Lemma elem_of_edges_remove_node (n u v : string) (gr : DiGraph.t) :
  (u, v) ∈ DiGraph.edges (DiGraph.remove_node n gr)
  <-> (u, v) ∈ DiGraph.edges gr /\ u <> n /\ v <> n.
Proof.
  rewrite !elem_of_edges. unfold DiGraph.remove_node.
  change (map ?f ?l) with (f <$> l). split.
  - intros (d & Hin & Hv). apply list_elem_of_fmap in Hin as ([m d0] & [= -> ->] & Hin).
    apply list_elem_of_filter in Hin as [Hm Hin]. simpl in *.
    apply list_elem_of_filter in Hv as [Hvn Hv]. eauto 6.
  - intros ((d & Hin & Hv) & Hu & Hvn).
    exists {| DiGraph.attr := DiGraph.attr d;
              DiGraph.succ := filter (fun w => w <> n) (DiGraph.succ d) |}.
    split.
    + apply list_elem_of_fmap. exists (u, d). split; [reflexivity|].
      apply list_elem_of_filter. auto.
    + simpl. apply list_elem_of_filter. auto.
Qed.

Lemma both_attrs_remove_node (n : string) (gr : DiGraph.t) :
  has_both_attrs gr -> has_both_attrs (DiGraph.remove_node n gr).
Proof.
  unfold has_both_attrs, DiGraph.remove_node. intros H.
  change (map ?f ?l) with (f <$> l).
  apply Forall_fmap, Forall_forall. intros [m d] Hin.
  apply list_elem_of_filter in Hin as [_ Hin].
  rewrite Forall_forall in H. exact (H _ Hin).
Qed.

Lemma both_attrs_rm_excluded (rm_nodes : list string) (gr : DiGraph.t) :
  has_both_attrs gr -> has_both_attrs (rm_excluded rm_nodes gr).
Proof.
  unfold rm_excluded. revert gr.
  induction rm_nodes as [|n rest IH]; intros gr H; simpl; [exact H|].
  apply IH. destruct (DiGraph.has_node n gr);
    [apply both_attrs_remove_node, H | exact H].
Qed.

(** One turn of the pruning loop, on a graph whose edges end in nodes. *)
Lemma prune_step (n : string) (gr : DiGraph.t) :
  edges_closed gr ->
  let gr1 := if DiGraph.has_node n gr then DiGraph.remove_node n gr else gr in
  DiGraph.nodes gr1 = filter (fun x => x <> n) (DiGraph.nodes gr)
  /\ (forall u v, (u, v) ∈ DiGraph.edges gr1
                  <-> (u, v) ∈ DiGraph.edges gr /\ u <> n /\ v <> n)
  /\ edges_closed gr1.
Proof.
  intros Hcl. cbv zeta. destruct (DiGraph.has_node n gr) eqn:Hn.
  - split; [apply nodes_remove_node|]. split; [intros; apply elem_of_edges_remove_node|].
    intros u v Huv. apply elem_of_edges_remove_node in Huv as (Huv & _ & Hv).
    rewrite nodes_remove_node. apply list_elem_of_filter. split; [exact Hv | eauto].
  - apply has_node_false in Hn. split; [|split; [|exact Hcl]].
    + symmetry. induction (DiGraph.nodes gr) as [|x l IH]; [reflexivity|].
      rewrite filter_cons_True by (intros ->; apply Hn; left).
      f_equal. apply IH. intros H. apply Hn. right. exact H.
    + intros u v. split; [|tauto]. intros Huv. split; [exact Huv|].
      split; intros ->; apply Hn;
        [exact (edge_source_is_node _ _ _ Huv) | exact (Hcl _ _ Huv)].
Qed.

(** Pruning keeps the nodes that are not on the list, in their order,
    and the edges between two such nodes; everything else goes. *)
Theorem pruning_removes_listed (rm_nodes : list string) (gr : DiGraph.t) :
  edges_closed gr ->
  DiGraph.nodes (rm_excluded rm_nodes gr)
  = filter (fun x => x ∉ rm_nodes) (DiGraph.nodes gr)
  /\ (forall u v,
        (u, v) ∈ DiGraph.edges (rm_excluded rm_nodes gr)
        <-> (u, v) ∈ DiGraph.edges gr /\ (u ∉ rm_nodes) /\ (v ∉ rm_nodes)).
Proof.
  unfold rm_excluded. revert gr.
  induction rm_nodes as [|n rest IH]; intros gr Hcl; simpl.
  - split.
    + symmetry. induction (DiGraph.nodes gr) as [|x l IHl]; [reflexivity|].
      rewrite filter_cons_True by (intros H; inversion H). f_equal. exact IHl.
    + intros u v. split; [|tauto]. intros H.
      split; [exact H|]. split; intros Hin; inversion Hin.
  - destruct (prune_step n gr Hcl) as (Hn & He & Hcl1).
    destruct (IH _ Hcl1) as (IHn & IHe).
    split.
    + rewrite IHn, Hn, list_filter_filter. apply list_filter_iff.
      intros x. rewrite not_elem_of_cons. tauto.
    + intros u v. rewrite IHe, He, !not_elem_of_cons. tauto.
Qed.

Lemma pruning_removes_listed_witness :
  let gr := g (state_of (process_all example1 init)) in
  DiGraph.nodes (rm_excluded ["bar"; "baz"] gr)
  = filter (fun x => x ∉ ["bar"; "baz"]) (DiGraph.nodes gr).
Proof.
  cbv zeta.
  apply (pruning_removes_listed ["bar"; "baz"]
           (g (state_of (process_all example1 init)))).
  exact (proj2 (proj2 (process_all_more example1))).
Defined.

(** ** The dot text of a parsed graph *)

Lemma dump_node_ok (graph : DiGraph.t) (other_graphs : list DiGraph.t)
    (for_latex multi_page : bool) (node : string) :
  has_both_attrs graph -> Forall attributed other_graphs ->
  DiGraph.has_node node graph = true ->
  exists text, dump_node graph other_graphs for_latex multi_page node = inr text.
Proof.
  intros Hat Hothers Hn. unfold dump_node, node_defined_in_other_src.
  destruct (defined_loop_attributed node other_graphs Hothers false) as (b & -> & _).
  destruct (both_attrs_get node graph Hat Hn) as (nest & src & -> & ->).
  unfold dot_format_node, choose_node_format.
  destruct (color_shape_by_depth nest) as (color & shape & -> & _).
  simpl. eauto.
Qed.

Lemma dump_nodes_ok (graph : DiGraph.t) (other_graphs : list DiGraph.t)
    (for_latex multi_page : bool) (nodes : list string) :
  has_both_attrs graph -> Forall attributed other_graphs ->
  (forall n, n ∈ nodes -> DiGraph.has_node n graph = true) ->
  forall dot_str, exists out,
    dump_nodes graph other_graphs for_latex multi_page nodes dot_str = inr out.
Proof.
  intros Hat Hothers. induction nodes as [|n rest IH]; intros Hin dot_str; simpl.
  - eauto.
  - destruct (dump_node_ok graph other_graphs for_latex multi_page n Hat Hothers
                (Hin n ltac:(left))) as [text ->].
    apply IH. intros m Hm. apply Hin. right. exact Hm.
Qed.

Lemma both_attrs_attributed (gr : DiGraph.t) : has_both_attrs gr -> attributed gr.
Proof.
  unfold has_both_attrs, attributed. intros H.
  eapply Forall_impl; [exact H|]. intros p [_ Hs]. exact Hs.
Qed.

Lemma dump_ok (graph : DiGraph.t) (other_graphs : list DiGraph.t)
    (c_fname : string) (for_latex multi_page : bool) :
  has_both_attrs graph -> Forall attributed other_graphs ->
  exists dot_str,
    dump_dot_wo_pydot graph other_graphs c_fname for_latex multi_page = inr dot_str.
Proof.
  intros Hat Hothers. unfold dump_dot_wo_pydot.
  destruct (dump_nodes_ok graph other_graphs for_latex multi_page
              (DiGraph.nodes graph) Hat Hothers
              ltac:(intros n Hn; apply has_node_nodes, Hn)
              (dot_preamble c_fname for_latex)) as [out ->].
  eauto.
Qed.

(** Parsing, pruning and writing fit together: for a graph that
    [cflow2nx] returned and sibling graphs that it returned, all pruned
    with the same list, the dot text is produced without a [KeyError] or
    an [IndexError], in every mode. *)
Theorem dump_after_parse_never_raises (cflow_str c_fname : string)
    (gr : DiGraph.t) (s : pstate) (others : list DiGraph.t)
    (rm_nodes : list string) (for_latex multi_page : bool) :
  cflow2nx cflow_str c_fname = Done gr s ->
  Forall (fun o => exists str f s', cflow2nx str f = Done o s') others ->
  exists dot_str,
    dump_dot_wo_pydot (rm_excluded rm_nodes gr) (map (rm_excluded rm_nodes) others)
      c_fname for_latex multi_page = inr dot_str.
Proof.
  intros Hgr Hothers. apply dump_ok.
  - apply both_attrs_rm_excluded. exact (proj1 (cflow2nx_more _ _ _ _ Hgr)).
  - change (map ?f ?l) with (f <$> l). apply Forall_fmap.
    eapply Forall_impl; [exact Hothers|].
    intros o (str & f & s' & Ho). simpl.
    apply attributed_rm_excluded, both_attrs_attributed.
    exact (proj1 (cflow2nx_more _ _ _ _ Ho)).
Qed.

Lemma dump_after_parse_never_raises_witness :
  exists gr s other s' dot_str,
    cflow2nx (String.append "{   0} main() <int main (void) at a.c:3>:"
               (String Py.newline "{   1}     helper()")) "a.c" = Done gr s
    /\ cflow2nx "{   0} helper() <void helper (void) at b.c:42>:" "b.c"
       = Done other s'
    /\ dump_dot_wo_pydot (rm_excluded ["main"] gr) (map (rm_excluded ["main"]) [other])
         "a.c" true true = inr dot_str.
Proof.
  destruct (cflow2nx (String.append "{   0} main() <int main (void) at a.c:3>:"
               (String Py.newline "{   1}     helper()")) "a.c")
    as [gr s|e s] eqn:Ha; [|vm_compute in Ha; discriminate].
  destruct (cflow2nx "{   0} helper() <void helper (void) at b.c:42>:" "b.c")
    as [other s'|e s'] eqn:Hb; [|vm_compute in Hb; discriminate].
  destruct (dump_after_parse_never_raises _ "a.c" gr s [other] ["main"] true true Ha)
    as [dot_str Hd].
  - constructor; [|constructor]. eexists _, _, _. exact Hb.
  - exists gr, s, other, s', dot_str. split; [reflexivity|].
    split; [reflexivity | exact Hd].
Defined.

(** ** Sibling graphs matter in multi-page mode only *)

Lemma dump_node_single_page (graph : DiGraph.t) (o1 o2 : list DiGraph.t)
    (for_latex : bool) (node : string) :
  Forall attributed o1 -> Forall attributed o2 ->
  dump_node graph o1 for_latex false node = dump_node graph o2 for_latex false node.
Proof.
  intros H1 H2. unfold dump_node, node_defined_in_other_src.
  destruct (defined_loop_attributed node o1 H1 false) as (b1 & -> & _).
  destruct (defined_loop_attributed node o2 H2 false) as (b2 & -> & _).
  reflexivity.
Qed.

(** Without multi-page mode the dot text of a graph is the same
    whatever the sibling graphs are. *)
Theorem siblings_matter_in_multi_page_only (graph : DiGraph.t)
    (o1 o2 : list DiGraph.t) (c_fname : string) (for_latex : bool) :
  Forall attributed o1 -> Forall attributed o2 ->
  dump_dot_wo_pydot graph o1 c_fname for_latex false
  = dump_dot_wo_pydot graph o2 c_fname for_latex false.
Proof.
  intros H1 H2. unfold dump_dot_wo_pydot.
  assert (Hn : forall nodes dot_str,
             dump_nodes graph o1 for_latex false nodes dot_str
             = dump_nodes graph o2 for_latex false nodes dot_str).
  { induction nodes as [|n rest IH]; intros dot_str; simpl; [reflexivity|].
    rewrite (dump_node_single_page graph o1 o2 for_latex n H1 H2).
    destruct (dump_node graph o2 for_latex false n); [reflexivity | apply IH]. }
  rewrite Hn. reflexivity.
Qed.

Lemma siblings_matter_in_multi_page_only_witness :
  let graphA : DiGraph.t :=
    [("helper", {| DiGraph.attr := {| DiGraph.nest_level := Some 1;
                                      DiGraph.src_line := Some (-1) |};
                   DiGraph.succ := [] |})] in
  let graphB : DiGraph.t :=
    [("helper", {| DiGraph.attr := {| DiGraph.nest_level := Some 0;
                                      DiGraph.src_line := Some 42 |};
                   DiGraph.succ := [] |})] in
  dump_dot_wo_pydot graphA [graphB] "a.c" true false
  = dump_dot_wo_pydot graphA [] "a.c" true false
  /\ dump_dot_wo_pydot graphA [graphB] "a.c" true true
     <> dump_dot_wo_pydot graphA [] "a.c" true true.
Proof.
  cbv zeta. split.
  - apply siblings_matter_in_multi_page_only; repeat constructor. simpl. eauto.
  - vm_compute. discriminate.
Defined.

(** * The older converter *)

Lemma startswith_empty (s : string) : startswith s EmptyString = true.
Proof. destruct s; reflexivity. Qed.

Lemma startswith_fewer_spaces (n k : nat) (s : string) :
  startswith s (spaces (n + k)) = true -> startswith s (spaces n) = true.
Proof.
  unfold startswith. revert s. induction n as [|n IH]; intros s.
  - intros _. destruct s; reflexivity.
  - destruct s as [|c r]; cbn [String.prefix spaces Nat.add]; [discriminate|].
    destruct (ascii_dec " " c); [apply IH | discriminate].
Qed.

(** [get_name] drops the indentation and stops at the parenthesis. *)
Theorem get_name_strips (k : nat) (name rest : string) :
  occurs " " name = false -> occurs "(" name = false ->
  get_name (spaces k +:+ name +:+ String "(" rest) = name.
Proof.
  intros Hsp Hpar. induction k as [|k IH]; [|exact IH].
  change (spaces 0 +:+ ?x) with x.
  induction name as [|c r IHr]; simpl; [reflexivity|].
  simpl in Hsp, Hpar.
  apply orb_false_iff in Hsp as [Hc1 Hr1]. apply orb_false_iff in Hpar as [Hc2 Hr2].
  rewrite Hc1, Hc2, (IHr Hr1 Hr2). reflexivity.
Qed.

Lemma get_name_strips_witness :
  get_name "        foo_bar() <void foo_bar (void) at t.c:20>:" = "foo_bar".
Proof.
  exact (get_name_strips 8 "foo_bar" ") <void foo_bar (void) at t.c:20>:"
           eq_refl eq_refl).
Defined.

Lemma max_space_grows (lines : list string) (k : nat) :
  (k <= fold_left (fun space line =>
                     if startswith line (spaces (space * 4)) then S space else space)
                  lines k)%nat.
Proof.
  revert k. induction lines as [|l lines IH]; intros k; simpl; [lia|].
  destruct (startswith l (spaces (k * 4))); [specialize (IH (S k)); lia | apply IH].
Qed.

Lemma max_space_flat (lines : list string) :
  existsb (fun l => startswith l (spaces 4)) lines = false ->
  fold_left (fun space line =>
               if startswith line (spaces (space * 4)) then S space else space)
            lines 1%nat = 1%nat.
Proof.
  induction lines as [|l lines IH]; [reflexivity|].
  cbn [fold_left existsb]. intros H. apply orb_false_iff in H as [Hl Hrest].
  change (spaces (1 * 4)) with (spaces 4). rewrite Hl. exact (IH Hrest).
Qed.

Lemma max_space_deep (lines : list string) :
  existsb (fun l => startswith l (spaces 4)) lines = true ->
  (2 <= fold_left (fun space line =>
                     if startswith line (spaces (space * 4)) then S space else space)
                  lines 1%nat)%nat.
Proof.
  induction lines as [|l lines IH]; [discriminate|].
  cbn [fold_left existsb]. change (spaces (1 * 4)) with (spaces 4).
  destruct (startswith l (spaces 4)); cbn [orb].
  - intros _. apply max_space_grows.
  - exact IH.
Qed.

(** At depth 0 the inner loop goes through once [pred_node] is bound. *)
Lemma old_pass0_total (lines : list string) (st : old_state) :
  is_Some (o_pred st) ->
  exists st', old_pass 0 lines st = inr st'.
Proof.
  revert st. induction lines as [|l lines IH]; intros st Hp; cbn [old_pass];
    [eauto|].
  assert (Hstep : exists st1, old_step 0 l st = inr st1 /\ is_Some (o_pred st1)).
  { unfold old_step.
    destruct (startswith l (spaces ((0 + 1) * 4))
              && negb (startswith l (spaces ((0 + 2) * 4)))).
    - cbv zeta.
      set (st1 := if Py.mem (get_name l) (o_nodes st) then st else _).
      assert (Hp1 : is_Some (o_pred st1))
        by (unfold st1; destruct (Py.mem _ _); exact Hp).
      destruct Hp1 as [p Hp1].
      destruct (edge_mem (p, get_name l) (o_edges st1)) eqn:He.
      + exists st1. split; [rewrite Hp1, He; reflexivity | rewrite Hp1; eauto].
      + eexists. split; [rewrite Hp1, He; reflexivity|].
        exists p. reflexivity.
    - change (spaces (0 * 4)) with EmptyString. rewrite startswith_empty.
      eexists. split; [reflexivity|]. cbn [o_pred]. eauto. }
  destruct Hstep as (st1 & -> & Hp1). exact (IH st1 Hp1).
Qed.

(** At depth 0, lines that are not indented change neither the text
    nor what is printed. *)
Lemma old_pass0_flat (lines : list string) (st : old_state) :
  existsb (fun l => startswith l (spaces 4)) lines = false ->
  exists st', old_pass 0 lines st = inr st'
              /\ o_dot st' = o_dot st /\ o_printed st' = o_printed st.
Proof.
  revert st. induction lines as [|l lines IH]; intros st H; cbn [old_pass];
    [eauto|].
  cbn [existsb] in H. apply orb_false_iff in H as [Hl Hrest].
  unfold old_step. change (spaces ((0 + 1) * 4)) with (spaces 4).
  rewrite Hl. cbn [andb].
  change (spaces (0 * 4)) with EmptyString. rewrite startswith_empty.
  destruct (IH {| o_nodes := o_nodes st; o_edges := o_edges st; o_dot := o_dot st;
                  o_pred := Some (get_name l); o_printed := o_printed st |} Hrest)
    as (st' & -> & Hd & Hpr).
  eauto.
Qed.

(** On a text whose first line is not indented by four spaces, the
    older converter never draws a call: when some later line is
    indented it raises its [Exception('bug ?')], and otherwise it
    returns the bare header and prints nothing. *)
Theorem cflow2dot_old_draws_no_call (data filename : string) (offset : bool)
    (l0 : string) (rest : list string) :
  lines_of data = l0 :: rest ->
  startswith l0 (spaces 4) = false ->
  cflow2dot_old data offset filename =
  if existsb (fun l => startswith l (spaces 4)) rest then inl BugQuestion
  else inr (old_header filename +:+ "}" +:+ nl, []).
Proof.
  intros Hlines Hl0. unfold cflow2dot_old. rewrite Hlines.
  unfold get_max_space. cbn [fold_left].
  change (spaces (0 * 4)) with EmptyString. rewrite startswith_empty.
  assert (Hfirst : forall st,
             old_step 0 l0 st
             = inr {| o_nodes := o_nodes st; o_edges := o_edges st;
                      o_dot := o_dot st; o_pred := Some (get_name l0);
                      o_printed := o_printed st |}).
  { intros st. unfold old_step. change (spaces ((0 + 1) * 4)) with (spaces 4).
    rewrite Hl0. cbn [andb].
    change (spaces (0 * 4)) with EmptyString. rewrite startswith_empty.
    reflexivity. }
  destruct (existsb (fun l => startswith l (spaces 4)) rest) eqn:Hex.
  - pose proof (max_space_deep rest Hex) as Hdeep.
    destruct (fold_left _ rest 1%nat) as [|[|m]]; [lia | lia |].
    cbn [seq old_passes old_pass]. rewrite Hfirst.
    destruct (old_pass0_total rest
                {| o_nodes := o_nodes (old_init filename);
                   o_edges := o_edges (old_init filename);
                   o_dot := o_dot (old_init filename);
                   o_pred := Some (get_name l0);
                   o_printed := o_printed (old_init filename) |}
                ltac:(simpl; eauto)) as [st1 ->].
    assert (Hbug : old_step 1 l0 st1 = inl BugQuestion).
    { unfold old_step.
      destruct (startswith l0 (spaces ((1 + 1) * 4))) eqn:H8.
      - apply (startswith_fewer_spaces 4 4) in H8. congruence.
      - change (spaces (1 * 4)) with (spaces 4). rewrite Hl0. reflexivity. }
    rewrite Hbug. reflexivity.
  - rewrite (max_space_flat rest Hex).
    cbn [seq old_passes old_pass]. rewrite Hfirst.
    destruct (old_pass0_flat rest
                {| o_nodes := o_nodes (old_init filename);
                   o_edges := o_edges (old_init filename);
                   o_dot := o_dot (old_init filename);
                   o_pred := Some (get_name l0);
                   o_printed := o_printed (old_init filename) |} Hex)
      as (st' & -> & Hd & Hpr).
    rewrite Hd, Hpr. reflexivity.
Qed.

Lemma cflow2dot_old_draws_no_call_witness :
  cflow2dot_old
    (String.append "main() <int main (void) at t.c:10>:"
       (String Py.newline "    foo() <void foo (void) at t.c:20>:"))
    false "t.c" = inl BugQuestion.
Proof.
  apply (cflow2dot_old_draws_no_call
           (String.append "main() <int main (void) at t.c:10>:"
              (String Py.newline "    foo() <void foo (void) at t.c:20>:"))
           "t.c" false
           "main() <int main (void) at t.c:10>:"
           ["    foo() <void foo (void) at t.c:20>:"]); reflexivity.
Defined.

(** * A malformed line *)

(** A line that is not blank and cannot be read ends the parse with
    [ValueError] at that line: the lines after it are not looked at, and
    the objects are left as the lines before it made them. *)
Theorem malformed_line_aborts (pre : list string) (line : string)
    (post : list string) (e : exn) (s : pstate) :
  for_each pre loop_body init = Done tt s ->
  line <> EmptyString -> parse_line line = inl e ->
  cflow2nx_lines (pre ++ line :: post) = Raised ValueError s.
Proof.
  intros Hpre Hne Hparse. unfold cflow2nx_lines, bind.
  rewrite for_each_app, Hpre, for_each_cons.
  destruct (loop_body_cases line s) as [H | [H | (c & Hc & _)]].
  - exfalso. unfold loop_body in H.
    destruct (String.eqb_spec line ""); [contradiction|].
    unfold bind, try_reads in H. rewrite Hparse in H. discriminate.
  - rewrite H. reflexivity.
  - congruence.
Qed.

Lemma malformed_line_aborts_witness :
  exists s,
    cflow2nx_lines (["{   0} main() <int main (void) at t.c:10>:"]
                      ++ "    foo() <void foo (void) at t.c:20>:"
                      :: ["{   1}     bar()"])
    = Raised ValueError s
    /\ DiGraph.nodes (g s) = ["main"].
Proof.
  pose (s := state_of (for_each ["{   0} main() <int main (void) at t.c:10>:"]
                         loop_body init)).
  exists s. split; [|vm_compute; reflexivity].
  apply (malformed_line_aborts _ _ _ ValueError s).
  - vm_compute. reflexivity.
  - discriminate.
  - vm_compute. reflexivity.
Defined.
